(** * LangaraCoursePlanner: section search, timetable composer, combinations

    A shallow embedding of the client-side logic of the course planner:

    - [SectionSearch]: the section browser (query-string construction,
      [handleInputChange], the instructor and room cells of the result table);
    - [SectionBrowser]: the rest of the section browser (the handlers of
      the form, the pagination, the results counter, the two requests);
    - [Composer]: the timetable composer's [fetchData] and its three-way
      render, and [ComposerRuns]: the composer over several fetches;
    - [Timetable]: the course selector, the combination enumerator and the
      conflict test, which live in components the composer only imports.

    JavaScript values are modelled by a small tagged union, objects used as
    records by insertion-ordered association lists with unique keys, arrays
    by lists, and thrown exceptions by a sum type. *)

From stdpp Require Import gmap strings list sorting.
From Stdlib Require Import Ascii DecimalString DecimalPos.

Open Scope string_scope.
Open Scope list_scope.

(** ** JavaScript values *)

Module JS.

(** The values a search parameter holds at run time: the interface types
    them [string], [number] or [boolean], all optional. Numbers in this
    program are page counts, years and terms, hence integers. *)
Inductive Value :=
| Undefined
| Str (s : string)
| Num (n : Z)
| Bool (b : bool).

#[global] Instance Value_eq_dec : EqDecision Value.
Proof. solve_decision. Defined.

(** [a !== b] on these values: different tag or different payload. *)
Definition strict_neq (a b : Value) : bool := bool_decide (a ≠ b).

(** [value.toString()]: a [TypeError] (here [None]) on [undefined]. *)
Definition toString (v : Value) : option string :=
  match v with
  | Undefined => None
  | Str s => Some s
  | Num n => Some (NilZero.string_of_int (Z.to_int n))
  | Bool true => Some "true"
  | Bool false => Some "false"
  end.

(** [Array.prototype.join]. *)
Fixpoint join (sep : string) (l : list string) : string :=
  match l with
  | [] => ""
  | [x] => x
  | x :: rest => x +:+ sep +:+ join sep rest
  end.

(** [s || d] on strings: the empty string is the only falsy one. *)
Definition or_else (s d : string) : string :=
  match s with
  | "" => d
  | _ => s
  end.

(** [self.indexOf(x)]: the first index holding [x], or [-1]. *)
Fixpoint indexOf_from `{EqDecision A} (self : list A) (x : A) (i : Z) : Z :=
  match self with
  | [] => -1
  | y :: rest => if decide (y = x) then i else indexOf_from rest x (i + 1)
  end.

Definition indexOf `{EqDecision A} (self : list A) (x : A) : Z :=
  indexOf_from self x 0.

(** [self.filter((x, index, self) => p)]: the callback also receives the
    index of the element and the array being filtered. *)
Fixpoint filter_from {A} (p : A → Z → bool) (i : Z) (l : list A) : list A :=
  match l with
  | [] => []
  | x :: rest =>
      if p x i then x :: filter_from p (i + 1) rest
      else filter_from p (i + 1) rest
  end.

Definition filter_indexed {A} (p : A → Z → list A → bool) (self : list A)
  : list A :=
  filter_from (λ x i, p x i self) 0 self.

End JS.

(** ** The section browser *)

Module SectionSearch.
Import JS.

(** [interface Schedule]. *)
Record Schedule := {
  sch_type : string;
  sch_days : string;
  sch_time : string;
  sch_start : string;
  sch_end : string;
  sch_room : string;
  sch_instructor : string;
  sch_id : string
}.

(** [interface Section], with the fields the table reads. *)
Record Section := {
  abbreviated_title : string;
  course_code : string;
  crn : Z;
  id : string;
  section : string;
  subject : string;
  term : Z;
  year : Z;
  seats : string;
  waitlist : string;
  schedule : list Schedule
}.

(** [keyof SearchParams]. *)
Inductive Key :=
| k_subject | k_course_code | k_instructor_search | k_title_search
| k_year | k_term
| k_attr_ar | k_attr_sc | k_attr_hum | k_attr_lsc | k_attr_sci
| k_attr_soc | k_attr_ut
| k_online | k_filter_no_waitlist | k_filter_open_seats
| k_filter_not_cancelled
| k_page | k_sections_per_page.

#[global] Instance Key_eq_dec : EqDecision Key.
Proof. solve_decision. Defined.

Definition key_name (k : Key) : string :=
  match k with
  | k_subject => "subject"
  | k_course_code => "course_code"
  | k_instructor_search => "instructor_search"
  | k_title_search => "title_search"
  | k_year => "year"
  | k_term => "term"
  | k_attr_ar => "attr_ar"
  | k_attr_sc => "attr_sc"
  | k_attr_hum => "attr_hum"
  | k_attr_lsc => "attr_lsc"
  | k_attr_sci => "attr_sci"
  | k_attr_soc => "attr_soc"
  | k_attr_ut => "attr_ut"
  | k_online => "online"
  | k_filter_no_waitlist => "filter_no_waitlist"
  | k_filter_open_seats => "filter_open_seats"
  | k_filter_not_cancelled => "filter_not_cancelled"
  | k_page => "page"
  | k_sections_per_page => "sections_per_page"
  end.

(** A [SearchParams] object: its own properties in insertion order, as
    [Object.entries] lists them. A JavaScript object holds a key once. *)
Definition SearchParams := list (Key * Value).

Definition well_formed (params : SearchParams) : Prop := NoDup params.*1.

(** Reading a property. *)
Fixpoint lookup_key (k : Key) (params : SearchParams) : option Value :=
  match params with
  | [] => None
  | (k', v) :: rest => if decide (k' = k) then Some v else lookup_key k rest
  end.

(** [{ ...obj, [k]: v }]: an existing property keeps its place and takes
    the new value, a new one goes last. *)
Fixpoint set_key (k : Key) (v : Value) (obj : SearchParams) : SearchParams :=
  match obj with
  | [] => [(k, v)]
  | (k', v') :: rest =>
      if decide (k' = k) then (k, v) :: rest else (k', v') :: set_key k v rest
  end.

(** The initial state of [searchParams]. *)
Definition initial_sections_per_page : Z := 50.

Definition initialSearchParams : SearchParams :=
  [(k_page, Num 1); (k_sections_per_page, Num initial_sections_per_page)].

(** *** The query string of [debouncedSearch] *)

(** A [URLSearchParams]: name/value pairs in the order appended. *)
Definition URLSearchParams := list (string * string).

Definition append (q : URLSearchParams) (name value : string)
  : URLSearchParams :=
  q ++ [(name, value)].

(** [value !== undefined && value !== '' && value !== false]. *)
Definition sent (value : Value) : bool :=
  strict_neq value Undefined && strict_neq value (Str "")
  && strict_neq value (Bool false).

(** The [forEach] over [Object.entries(params)], threading the
    [URLSearchParams] it appends to; [None] is the [TypeError] of calling
    [toString] on [undefined]. *)
Fixpoint forEach_entry (entries : list (Key * Value)) (q : URLSearchParams)
  : option URLSearchParams :=
  match entries with
  | [] => Some q
  | (key, value) :: rest =>
      if sent value then
        match toString value with
        | Some s => forEach_entry rest (append q (key_name key) s)
        | None => None
        end
      else forEach_entry rest q
  end.

(** [queryParams] as the request interpolates it: a fresh
    [URLSearchParams] after the loop. *)
Definition queryParams (params : SearchParams) : option URLSearchParams :=
  forEach_entry params [].

(** *** [handleInputChange] *)

(** A state updater queued with [setSearchParams(prev => ...)]. *)
Definition Updater := SearchParams → SearchParams.

(** The updaters one call queues, in order: the first always, the second
    unless the key is ['page']. *)
Definition handleInputChange_updates (key : Key) (value : Value)
  : list Updater :=
  (λ prev, set_key key value prev)
  :: (if decide (key = k_page) then []
      else [λ prev, set_key k_page (Num 1) (set_key key value prev)]).

(** React applies the queued updaters to the state one after another. *)
Definition apply_updates (us : list Updater) (st : SearchParams)
  : SearchParams :=
  foldl (λ s u, u s) st us.

Definition handleInputChange (key : Key) (value : Value) (st : SearchParams)
  : SearchParams :=
  apply_updates (handleInputChange_updates key value) st.

(** *** The instructor and room cells *)

(** [.filter((x, index, self) => self.indexOf(x) === index)]. *)
Definition removeDuplicates (l : list string) : list string :=
  filter_indexed (λ x index self, bool_decide (indexOf self x = index)) l.

Definition notExam (s : Schedule) : bool :=
  bool_decide (sch_type s ≠ "Exam").

Definition instructorList (sec : Section) : list string :=
  removeDuplicates (sch_instructor <$> filter (λ s, notExam s = true) (schedule sec)).

Definition roomList (sec : Section) : list string :=
  removeDuplicates (sch_room <$> filter (λ s, notExam s = true) (schedule sec)).

Definition instructorCell (sec : Section) : string :=
  or_else (join ", " (instructorList sec)) "TBA".

Definition roomCell (sec : Section) : string :=
  or_else (join ", " (roomList sec)) "Unknown".

(** Deduplication through a set container, as the design notes ask for:
    walk the list once, remember what was emitted, emit what is new. *)
Fixpoint dedup_with_set (seen : gset string) (l : list string) : list string :=
  match l with
  | [] => []
  | x :: rest =>
      if decide (x ∈ seen) then dedup_with_set seen rest
      else x :: dedup_with_set ({[x]} ∪ seen) rest
  end.

End SectionSearch.

(** ** The timetable composer *)

Module Composer.

(** The records of [types/Section] and [types/Course], with the fields
    [fetchData] reads and writes. *)
Record Section := {
  sec_id : string;
  sec_subject : string;
  sec_course_code : string
}.

Record Course := {
  subject : string;
  course_code : string;
  title : string;
  sections : list Section
}.

#[global] Instance Section_eq_dec : EqDecision Section.
Proof. solve_decision. Defined.

(** The parsed bodies. The annotations [CoursesResponse] and
    [SectionsResponse] are not checked at run time: a body of another shape
    has no [courses] (or [sections]) property, which reads as [undefined]
    (here [None]). *)
Record CoursesResponse := { courses_prop : option (list Course) }.
Record SectionsResponse := { sections_prop : option (list Section) }.

(** A settled promise, or a computation that may throw: the value, or the
    [message] of the error it was rejected with. *)
Inductive Settled (A : Type) :=
| Fulfilled (a : A)
| Rejected (message : string).
Arguments Fulfilled {A} a.
Arguments Rejected {A} message.

#[global] Instance Settled_bind : MBind Settled := λ A B k m,
  match m with
  | Fulfilled a => k a
  | Rejected msg => Rejected msg
  end.

(** A [Response] as far as [fetchData] uses it: what its [json()] settles
    to (a [SyntaxError] on a malformed body). *)
Definition Response (A : Type) := Settled A.

(** When both fetches reject, [Promise.all] rejects with the one that
    rejected first. *)
Inductive Race := CoursesFirst | SectionsFirst.

Definition Promise_all {A B} (p1 : Settled A) (p2 : Settled B) (race : Race)
  : Settled (A * B) :=
  match p1, p2 with
  | Fulfilled a, Fulfilled b => Fulfilled (a, b)
  | Rejected m, Fulfilled _ => Rejected m
  | Fulfilled _, Rejected m => Rejected m
  | Rejected m1, Rejected m2 =>
      match race with
      | CoursesFirst => Rejected m1
      | SectionsFirst => Rejected m2
      end
  end.

(** The [TypeError] of calling a method on [undefined] (V8's wording). *)
Definition TypeError_undefined (method : string) : string :=
  "Cannot read properties of undefined (reading '" +:+ method +:+ "')".

Definition belongs_to (course : Course) (section : Section) : bool :=
  bool_decide (sec_subject section = subject course)
  && bool_decide (sec_course_code section = course_code course).

(** The body of the [forEach] callback: [course.sections = ...filter(...)]. *)
Definition attach (sectionsData : SectionsResponse) (course : Course)
  : Settled Course :=
  match sections_prop sectionsData with
  | None => Rejected (TypeError_undefined "filter")
  | Some all =>
      Fulfilled {| subject := subject course;
                   course_code := course_code course;
                   title := title course;
                   sections := filter (λ s, belongs_to course s = true) all |}
  end.

(** [coursesData.courses.forEach(...)]: the callback runs once per course,
    in order, and the first throw ends the loop. *)
Fixpoint forEach_course (cs : list Course) (sectionsData : SectionsResponse)
  : Settled (list Course) :=
  match cs with
  | [] => Fulfilled []
  | course :: rest =>
      course' ← attach sectionsData course;
      rest' ← forEach_course rest sectionsData;
      Fulfilled (course' :: rest')
  end.

(** The [try] block of [fetchData], up to the argument of [setCourses]. *)
Definition tryBlock
    (coursesFetch : Settled (Response CoursesResponse))
    (sectionsFetch : Settled (Response SectionsResponse))
    (race : Race) : Settled (list Course) :=
  '(coursesResponse, sectionsResponse) ←
    Promise_all coursesFetch sectionsFetch race;
  coursesData ← coursesResponse;
  sectionsData ← sectionsResponse;
  cs ← match courses_prop coursesData with
        | Some cs => Fulfilled cs
        | None => Rejected (TypeError_undefined "forEach")
        end;
  merged ← forEach_course cs sectionsData;
  Fulfilled merged.

(** The component's state. *)
Record State := {
  selectedCourses : list Course;
  currentTimetable : list Section;
  courses : list Course;
  isLoading : bool;
  error : option string
}.

Definition initialState : State :=
  {| selectedCourses := []; currentTimetable := []; courses := [];
     isLoading := true; error := None |}.

Definition setCourses (cs : list Course) (st : State) : State :=
  {| selectedCourses := selectedCourses st;
     currentTimetable := currentTimetable st;
     courses := cs; isLoading := isLoading st; error := error st |}.

Definition setError (e : string) (st : State) : State :=
  {| selectedCourses := selectedCourses st;
     currentTimetable := currentTimetable st;
     courses := courses st; isLoading := isLoading st; error := Some e |}.

Definition setIsLoading (b : bool) (st : State) : State :=
  {| selectedCourses := selectedCourses st;
     currentTimetable := currentTimetable st;
     courses := courses st; isLoading := b; error := error st |}.

(** [fetchData]: try, catch, finally. *)
Definition fetchData
    (coursesFetch : Settled (Response CoursesResponse))
    (sectionsFetch : Settled (Response SectionsResponse))
    (race : Race) (st : State) : State :=
  let st' :=
    match tryBlock coursesFetch sectionsFetch race with
    | Fulfilled merged => setCourses merged st
    | Rejected message => setError ("Failed to fetch data: " +:+ message) st
    end in
  setIsLoading false st'.

(** What the component returns. *)
Inductive View :=
| LoadingView
| ErrorView (message : string)
| MainView (courses selectedCourses : list Course)
           (currentTimetable : list Section).

(** [if (error)]: [null] and the empty string are falsy. *)
Definition truthy (e : option string) : bool :=
  match e with
  | None | Some "" => false
  | Some _ => true
  end.

Definition render (st : State) : View :=
  if isLoading st then LoadingView
  else if truthy (error st) then ErrorView (default "" (error st))
  else MainView (courses st) (selectedCourses st) (currentTimetable st).

(** Either request failed: the fetch rejected, or the body did not parse. *)
Definition failed {A} (r : Settled (Response A)) : Prop :=
  match r with
  | Rejected _ | Fulfilled (Rejected _) => True
  | Fulfilled (Fulfilled _) => False
  end.

End Composer.

(** ** Course selector, combination enumerator, conflict test

    The composer imports [SelectedCourses], [TimetableSections] and
    [Calendar] from files of their own, whose sources are missing; this
    module follows the specification's sections 3, 4.2 and 4.3. *)

Module Timetable.

Inductive Day := Mon | Tue | Wed | Thu | Fri | Sat | Sun.

#[global] Instance Day_eq_dec : EqDecision Day.
Proof. solve_decision. Defined.

Definition Day_to_nat (d : Day) : nat :=
  match d with
  | Mon => 0 | Tue => 1 | Wed => 2 | Thu => 3 | Fri => 4 | Sat => 5 | Sun => 6
  end.

Definition Day_of_nat (n : nat) : option Day :=
  match n with
  | 0 => Some Mon | 1 => Some Tue | 2 => Some Wed | 3 => Some Thu
  | 4 => Some Fri | 5 => Some Sat | 6 => Some Sun | _ => None
  end.

#[global] Program Instance Day_countable : Countable Day :=
  inj_countable Day_to_nat Day_of_nat _.
Next Obligation. by intros []. Qed.

Inductive EntryType := Lecture | Lab | Seminar | Exam.

#[global] Instance EntryType_eq_dec : EqDecision EntryType.
Proof. solve_decision. Defined.

(** Modelled from the spec: the Schedule entry of the data model (the
    timetable components' own type is missing): a set of days, a start and
    an end time in minutes after midnight, a type, a room, an instructor. *)
Record ScheduleEntry := {
  days : gset Day;
  start : Z;
  finish : Z;
  type : EntryType;
  room : string;
  instructor : string
}.

(** A time of day, [h:m], in minutes after midnight. *)
Definition at_time (h m : Z) : Z := (h * 60 + m)%Z.

(** Modelled from the spec: the Section of the data model (missing with
    [TimetableSections]): identifier, the key of its course, its schedule,
    seat and waitlist counts, delivery mode. *)
Record Section := {
  id : string;
  sec_subject : string;
  sec_course_code : string;
  schedule : list ScheduleEntry;
  seats : Z;
  waitlist : Z;
  online : bool
}.

(** Modelled from the spec: the Course of the data model (missing with
    [SelectedCourses]): subject, course number, the sections it owns. *)
Record Course := {
  subject : string;
  course_code : string;
  sections : list Section
}.

(** Subject and course code: the key a Selection is deduplicated by. *)
Definition CourseKey : Type := string * string.

Definition key (c : Course) : CourseKey := (subject c, course_code c).

(** Modelled from the spec: the Selection (state of the missing
    [SelectedCourses]): the chosen courses, in the order they were added. *)
Abbreviation Selection := (list Course).

(** Modelled from the spec: a Combination (produced by the missing
    [TimetableSections]): one section per course/component-type group, in
    the order of the groups. *)
Abbreviation Combination := (list Section).

(** *** Course selector *)

(** Modelled from the spec: [add(course)] of the missing course selector:
    appends to the Selection if no course has its key, no-op otherwise. *)
Definition add (c : Course) (sel : Selection) : Selection :=
  if decide (key c ∈ key <$> sel) then sel else sel ++ [c].

(** Modelled from the spec: [remove(courseKey)] of the missing course
    selector: removes the matching course. *)
Definition remove (k : CourseKey) (sel : Selection) : Selection :=
  filter (λ c, key c ≠ k) sel.

(** Modelled from the spec: the Selection invariant (missing with the
    selector): uniqueness by subject and course code. *)
Definition unique_keys (sel : Selection) : Prop := NoDup (key <$> sel).

(** *** Conflict test *)

(** Modelled from the spec: the conflict test of the missing enumerator: a
    common day of the week, and [start, end) intervals that intersect. The
    intersection of two half-open intervals is the interval from the later
    start to the earlier end. *)
Definition conflict (a b : ScheduleEntry) : bool :=
  bool_decide (days a ∩ days b ≠ ∅)
  && bool_decide (Z.max (start a) (start b) < Z.min (finish a) (finish b))%Z.

(** Modelled from the spec: exam entries take no part in conflict checking
    (the filter of the missing enumerator). *)
Definition non_exam (e : ScheduleEntry) : bool := bool_decide (type e ≠ Exam).

Definition entries (c : Combination) : list ScheduleEntry :=
  s ← c; filter (λ e, non_exam e = true) (schedule s).

(** No entry conflicts with a later one. *)
Fixpoint conflict_free (es : list ScheduleEntry) : bool :=
  match es with
  | [] => true
  | e :: rest => forallb (λ e', negb (conflict e e')) rest && conflict_free rest
  end.

(** Modelled from the spec: the validity flag of the missing enumerator: no
    pairwise conflict across the non-exam entries of the combination. *)
Definition valid (c : Combination) : bool := conflict_free (entries c).

(** *** Combination enumerator *)

(** The cartesian product of a list of groups, the first group varying
    slowest: the order nested loops over the groups give. *)
Fixpoint product {A} (groups : list (list A)) : list (list A) :=
  match groups with
  | [] => [[]]
  | g :: rest => s ← g; (s ::.) <$> product rest
  end.

(** The number of ways to take one element from each group. *)
Definition choices {A} (groups : list (list A)) : nat :=
  foldr (λ g n, length g * n) 1 groups.

(** The combination at position [k] of the product, by mixed-radix digits
    of [k]: the digit of a group indexes into it. *)
Fixpoint pick {A} (groups : list (list A)) (k : nat) : option (list A) :=
  match groups with
  | [] => match k with 0 => Some [] | S _ => None end
  | g :: rest =>
      s ← g !! (k / choices rest);
      c ← pick rest (k mod choices rest);
      Some (s :: c)
  end.

(** The distinct values of a list, by first occurrence. *)
Fixpoint distinct `{EqDecision C} (l : list C) : list C :=
  match l with
  | [] => []
  | x :: rest => x :: filter (λ y, y ≠ x) (distinct rest)
  end.

Section Enumerator.

(** How the data tells the component type (lecture, lab, seminar) of a
    section; data that does not tell gives every section the same one. *)
Context {C : Type} `{EqDecision C} (component : Section → C).

(** The sections of each component type, types by first occurrence,
    sections in their order. *)
Definition by_component (secs : list Section) : list (list Section) :=
  (λ k, filter (λ s, component s = k) secs) <$> distinct (component <$> secs).

(** Modelled from the spec: the groups of a course in the missing
    enumerator: its sections grouped by component type when the data
    distinguishes several, otherwise all its sections as alternatives to one
    another. *)
Definition groups (c : Course) : list (list Section) :=
  let gs := by_component (sections c) in
  if decide (1 < length gs) then gs else [sections c].

Definition all_groups (sel : Selection) : list (list Section) :=
  c ← sel; groups c.

(** Modelled from the spec: the output of the missing Combination
    Enumerator: every combination of one section per group, in the order of
    the Selection and of each course's sections, each with its validity
    flag. *)
Definition enumerate (sel : Selection) : list (Combination * bool) :=
  (λ c, (c, valid c)) <$> product (all_groups sel).

End Enumerator.

End Timetable.

(** ** The section browser: form handlers, pagination, requests *)

Module SectionBrowser.
Import JS SectionSearch.

(** A number interpolated in a template literal, or [n.toString()]: its
    decimal digits. This is the text JavaScript gives for the integers it
    holds exactly, up to [Number.MAX_SAFE_INTEGER] in size; larger numbers
    print rounded, and from 1e21 on in exponent notation. *)
Definition decimal (n : Z) : string := NilZero.string_of_int (Z.to_int n).

(** [Number.MAX_SAFE_INTEGER], 2^53 - 1. *)
Definition MAX_SAFE_INTEGER : Z := 9007199254740991.

(** [termToSeason]. *)
Definition termToSeason (term : Z) : string :=
  if decide (term = 10%Z) then "Spring"
  else if decide (term = 20%Z) then "Summer"
  else if decide (term = 30%Z) then "Fall"
  else "Unknown".

(** [interface Semester]. *)
Record Semester := {
  sem_term : Z;
  sem_year : Z;
  sem_id : string
}.

(** [interface SemestersResponse]. *)
Record SemestersResponse := {
  sem_count : Z;
  sem_semesters : list Semester
}.

(** [interface SubjectsResponse]. *)
Record SubjectsResponse := {
  subj_count : Z;
  subj_subjects : list string
}.

(** An entry of [semesterOptions]. *)
Record SelectOption := {
  opt_value : string;
  opt_label : string
}.

(** The callback of [semesters.semesters.map] in [semesterOptions]. *)
Definition semesterOption (sem : Semester) : SelectOption :=
  {| opt_value := decimal (sem_year sem) +:+ "-" +:+ decimal (sem_term sem);
     opt_label := termToSeason (sem_term sem) +:+ " " +:+ decimal (sem_year sem) |}.

(** [semesterOptions]: nothing to choose from until the semesters are
    loaded ([null], here [None]). *)
Definition semesterOptions (semesters : option SemestersResponse)
  : list SelectOption :=
  match semesters with
  | None => []
  | Some semesters => semesterOption <$> sem_semesters semesters
  end.

(** [s.split(sep)] for a separator of one character: the pieces between
    the separators, one more than there are separators. *)
Fixpoint split (sep : Ascii.ascii) (s : string) : list string :=
  match s with
  | EmptyString => [""]
  | String c rest =>
      if Ascii.eqb c sep then "" :: split sep rest
      else match split sep rest with
           | [] => [String c ""]
           | piece :: pieces => String c piece :: pieces
           end
  end.

(** An element of an array taken by destructuring: [undefined] past the
    end. *)
Definition element (parts : list string) (i : nat) : Value :=
  match parts !! i with
  | Some s => Str s
  | None => Undefined
  end.

(** [onChange] of the semester select: the value of the chosen option is
    split at the dash into year and term. *)
Definition semester_onChange (value : string) (st : SearchParams)
  : SearchParams :=
  let parts := split "-"%char value in
  let year := element parts 0 in
  let term := element parts 1 in
  handleInputChange k_term term (handleInputChange k_year year st).

(** [\D] matches every character but the ten digits. *)
Definition is_digit (c : Ascii.ascii) : bool :=
  (48 <=? Ascii.nat_of_ascii c)%nat && (Ascii.nat_of_ascii c <=? 57)%nat.

(** [value.replace(/\D/g, '')]. *)
Fixpoint remove_non_digits (s : string) : string :=
  match s with
  | EmptyString => EmptyString
  | String c rest =>
      if is_digit c then String c (remove_non_digits rest)
      else remove_non_digits rest
  end.

(** A string of decimal digits only. *)
Fixpoint all_digits (s : string) : bool :=
  match s with
  | EmptyString => true
  | String c rest => is_digit c && all_digits rest
  end.

(** [onChange] of the course code input. *)
Definition course_code_onChange (value : string) (st : SearchParams)
  : SearchParams :=
  handleInputChange k_course_code (Str (remove_non_digits value)) st.

(** [onChange] of the Online checkbox: it sets the state itself, without
    [handleInputChange]. *)
Definition online_onChange (checked : bool) (searchParams : SearchParams)
  : SearchParams :=
  set_key k_online (Bool checked) searchParams.

(** Reading a property of the state: [undefined] when absent. *)
Definition read (k : Key) (st : SearchParams) : Value :=
  default Undefined (lookup_key k st).

(** A JavaScript number as far as this page computes with them. *)
Inductive Numeric :=
| Finite (n : Z)
| NaN.

(** [Number(v)] on the values the page parameter takes: a number,
    [undefined], a boolean, the empty string, or a string of decimal digits
    (what [toString] gives for a page number). Strings of another form are
    not covered: [None]. *)
Definition Number (v : Value) : option Numeric :=
  match v with
  | Undefined => Some NaN
  | Num n => Some (Finite n)
  | Bool b => Some (Finite (if b then 1 else 0)%Z)
  | Str s =>
      match NilEmpty.uint_of_string s with
      | Some d => Some (Finite (Z.of_uint d))
      | None => None
      end
  end.

(** [x || 1] on a number: [0] and [NaN] are the falsy ones. *)
Definition or_one (x : Numeric) : Z :=
  match x with
  | NaN | Finite 0%Z => 1%Z
  | Finite n => n
  end.

(** [Number(searchParams.page) || 1]. *)
Definition currentPage (searchParams : SearchParams) : option Z :=
  or_one <$> Number (read k_page searchParams).

(** An element of [pages]: a page number or the string ['...']. *)
Inductive PageItem :=
| PageNumber (n : Z)
| Ellipsis.

#[global] Instance PageItem_eq_dec : EqDecision PageItem.
Proof. solve_decision. Defined.

(** The [pages] array of the pagination block, from its two constants. The
    [for] loop visits [start], [start + 1], ..., [end]. *)
Definition pages (totalPages currentPage : Z) : list PageItem :=
  let start := Z.max 2 (currentPage - 2) in
  let end_ := Z.min (totalPages - 1) (currentPage + 2) in
  [PageNumber 1]
  ++ (if decide (currentPage > 4)%Z then [Ellipsis] else [])
  ++ (PageNumber <$> filter (λ i, i ≠ 1%Z ∧ i ≠ totalPages)
                       (seqZ start (end_ - start + 1)))
  ++ (if decide (currentPage < totalPages - 3)%Z then [Ellipsis] else [])
  ++ (if decide (totalPages > 1)%Z then [PageNumber totalPages] else []).

(** The page numbers among the buttons, in order. *)
Definition page_numbers (items : list PageItem) : list Z :=
  omap (λ item, match item with
                | PageNumber n => Some n
                | Ellipsis => None
                end) items.

(** The buttons after page [prev] are well spaced: a number follows its
    predecessor directly, and an ellipsis stands for at least one page
    between the numbers around it. *)
Fixpoint spaced (prev : Z) (items : list PageItem) : Prop :=
  match items with
  | [] => True
  | PageNumber n :: rest => n = (prev + 1)%Z ∧ spaced n rest
  | Ellipsis :: PageNumber n :: rest => (prev + 1 < n)%Z ∧ spaced n rest
  | Ellipsis :: _ => False
  end.

(** [onClick] of a pagination button: numbers only. *)
Definition page_onClick (pageNum : PageItem) (st : SearchParams)
  : SearchParams :=
  match pageNum with
  | PageNumber n => handleInputChange k_page (Str (decimal n)) st
  | Ellipsis => st
  end.

(** The button drawn as current: [pageNum === currentPage]. *)
Definition highlighted (pageNum : PageItem) (currentPage : Z) : bool :=
  bool_decide (pageNum = PageNumber currentPage).

(** The results counter, ["Showing first to last of total"], from the page
    and page size as numbers. *)
Definition showing_first (page sections_per_page : Z) : Z :=
  ((page - 1) * sections_per_page + 1)%Z.

Definition showing_last (page sections_per_page total_sections : Z) : Z :=
  Z.min (page * sections_per_page) total_sections.

(** [interface SectionsResponse]. *)
Record SectionsResponse := {
  page : Z;
  sections_per_page : Z;
  total_sections : Z;
  total_pages : Z;
  sections : list Section
}.

(** [requestInfo]. *)
Record RequestInfo := {
  time : option Z;
  cached : option bool
}.

(** The state of the browser that requests write. *)
Record State := {
  semesters : option SemestersResponse;
  subjects : list string;
  sectionsData : option SectionsResponse;
  loading : bool;
  requestInfo : RequestInfo
}.

Definition initialState : State :=
  {| semesters := None; subjects := []; sectionsData := None;
     loading := false; requestInfo := {| time := None; cached := None |} |}.

Definition setSemesters (v : SemestersResponse) (st : State) : State :=
  {| semesters := Some v; subjects := subjects st;
     sectionsData := sectionsData st; loading := loading st;
     requestInfo := requestInfo st |}.

Definition setSubjects (v : list string) (st : State) : State :=
  {| semesters := semesters st; subjects := v;
     sectionsData := sectionsData st; loading := loading st;
     requestInfo := requestInfo st |}.

Definition setSections (v : SectionsResponse) (st : State) : State :=
  {| semesters := semesters st; subjects := subjects st;
     sectionsData := Some v; loading := loading st;
     requestInfo := requestInfo st |}.

Definition setLoading (v : bool) (st : State) : State :=
  {| semesters := semesters st; subjects := subjects st;
     sectionsData := sectionsData st; loading := v;
     requestInfo := requestInfo st |}.

Definition setRequestInfo (v : RequestInfo) (st : State) : State :=
  {| semesters := semesters st; subjects := subjects st;
     sectionsData := sectionsData st; loading := loading st;
     requestInfo := v |}.

(** [fetchInitialData]: two fetches at once, then the two bodies, then the
    two setters. Nothing catches a rejection: the state stays as it was. *)
Definition fetchInitialData
    (semestersRes : Composer.Settled (Composer.Response SemestersResponse))
    (subjectsRes : Composer.Settled (Composer.Response SubjectsResponse))
    (race : Composer.Race) (st : State) : State :=
  let outcome :=
    '(semestersRes, subjectsRes) ←
      Composer.Promise_all semestersRes subjectsRes race;
    semestersData ← semestersRes;
    subjectsData ← subjectsRes;
    Composer.Fulfilled (semestersData, subjectsData) in
  match outcome with
  | Composer.Fulfilled (semestersData, subjectsData) =>
      setSubjects (subj_subjects subjectsData) (setSemesters semestersData st)
  | Composer.Rejected _ => st
  end.

(** The response of a search as the function reads it: the cache header
    and what [json()] settles to. *)
Record SearchResponse := {
  x_fastapi_cache : option string;
  json : Composer.Settled SectionsResponse
}.

(** The function [debouncedSearch] delays, run on [params]: [response] is
    what the [fetch] settles to and [elapsed] the rounded time the request
    took. Nothing catches a rejection: the steps after it do not run. *)
Definition search (params : SearchParams)
    (response : Composer.Settled SearchResponse) (elapsed : Z) (st : State)
  : State :=
  let st := setLoading true st in
  match queryParams params with
  | None => st
  | Some _ =>
      match response with
      | Composer.Rejected _ => st
      | Composer.Fulfilled response =>
          match json response with
          | Composer.Rejected _ => st
          | Composer.Fulfilled data =>
              let cached :=
                bool_decide (x_fastapi_cache response = Some "HIT") in
              setLoading false
                (setSections data
                   (setRequestInfo {| time := Some elapsed;
                                      cached := Some cached |} st))
          end
      end
  end.

End SectionBrowser.

(** ** The timetable composer over several fetches *)

Module ComposerRuns.
Import Composer.

(** What one run of the effect's [fetchData] meets. *)
Record Fetch := {
  coursesFetch : Settled (Response CoursesResponse);
  sectionsFetch : Settled (Response SectionsResponse);
  race : Race
}.

Definition outcome (f : Fetch) : Settled (list Course) :=
  tryBlock (coursesFetch f) (sectionsFetch f) (race f).

(** A fetch that ends without error. *)
Definition succeeds (f : Fetch) : Prop := ∃ merged, outcome f = Fulfilled merged.

(** What the callback of the [forEach] makes of a course, given the
    [sections] array of the sections body. *)
Definition with_sections (all : list Section) (course : Course) : Course :=
  {| subject := subject course; course_code := course_code course;
     title := title course;
     sections := filter (λ s, belongs_to course s = true) all |}.

(** The effect runs again when the year or the term changes; each run ends
    before the next starts. *)
Definition run (fs : list Fetch) (st : State) : State :=
  foldl (λ s f, fetchData (coursesFetch f) (sectionsFetch f) (race f) s) st fs.

End ComposerRuns.

(** ** Sample data *)

Module Samples.

(** A search state as the form leaves it: a subject chosen, the course code
    cleared, one attribute ticked and another unticked, and the term read
    from an empty semester choice. *)
Definition search_state : SectionSearch.SearchParams :=
  [ (SectionSearch.k_page, JS.Num 1);
    (SectionSearch.k_sections_per_page, JS.Num 50);
    (SectionSearch.k_subject, JS.Str "CPSC");
    (SectionSearch.k_course_code, JS.Str "");
    (SectionSearch.k_attr_ar, JS.Bool false);
    (SectionSearch.k_online, JS.Bool true);
    (SectionSearch.k_year, JS.Str "");
    (SectionSearch.k_term, JS.Undefined) ].

Definition meeting (type instructor room : string) : SectionSearch.Schedule :=
  {| SectionSearch.sch_type := type; SectionSearch.sch_days := "-T-R---";
     SectionSearch.sch_time := "1030-1220"; SectionSearch.sch_start := "";
     SectionSearch.sch_end := ""; SectionSearch.sch_room := room;
     SectionSearch.sch_instructor := instructor; SectionSearch.sch_id := "" |}.

Definition listed_section (schedule : list SectionSearch.Schedule)
  : SectionSearch.Section :=
  {| SectionSearch.abbreviated_title := "Intro to Computer Science";
     SectionSearch.course_code := "1050"; SectionSearch.crn := 10001;
     SectionSearch.id := "SECT-CPSC-1050-2025-20-10001";
     SectionSearch.section := "001"; SectionSearch.subject := "CPSC";
     SectionSearch.term := 20; SectionSearch.year := 2025;
     SectionSearch.seats := "5"; SectionSearch.waitlist := "0";
     SectionSearch.schedule := schedule |}.

(** Two lectures by one instructor, a lab by another, and the exam. *)
Definition taught_section : SectionSearch.Section :=
  listed_section
    [ meeting "Lecture" "A. Lee" "A130"; meeting "Lab" "B. Wong" "B019";
      meeting "Lecture" "A. Lee" "A130"; meeting "Exam" "C. Exam" "GYM" ].


(** Fetched courses and sections of one term. *)
Definition fetched_section (subject code id : string) : Composer.Section :=
  {| Composer.sec_id := id; Composer.sec_subject := subject;
     Composer.sec_course_code := code |}.

Definition fetched_course (subject code : string) : Composer.Course :=
  {| Composer.subject := subject; Composer.course_code := code;
     Composer.title := ""; Composer.sections := [] |}.

Definition fetched_courses : list Composer.Course :=
  [ fetched_course "CPSC" "1050"; fetched_course "MATH" "1171" ].

Definition fetched_sections : list Composer.Section :=
  [ fetched_section "CPSC" "1050" "001"; fetched_section "MATH" "1171" "001";
    fetched_section "CPSC" "1150" "001"; fetched_section "CPSC" "1050" "002" ].

Definition courses_ok : Composer.Settled (Composer.Response Composer.CoursesResponse) :=
  Composer.Fulfilled
    (Composer.Fulfilled {| Composer.courses_prop := Some fetched_courses |}).

Definition sections_ok : Composer.Settled (Composer.Response Composer.SectionsResponse) :=
  Composer.Fulfilled
    (Composer.Fulfilled {| Composer.sections_prop := Some fetched_sections |}).

(** What the two bodies merge into. *)
Definition merged_courses : list Composer.Course :=
  [ {| Composer.subject := "CPSC"; Composer.course_code := "1050";
       Composer.title := "";
       Composer.sections := [ fetched_section "CPSC" "1050" "001";
                              fetched_section "CPSC" "1050" "002" ] |};
    {| Composer.subject := "MATH"; Composer.course_code := "1171";
       Composer.title := "";
       Composer.sections := [ fetched_section "MATH" "1171" "001" ] |} ].

(** The sections body is not JSON. *)
Definition sections_malformed
  : Composer.Settled (Composer.Response Composer.SectionsResponse) :=
  Composer.Fulfilled (Composer.Rejected "Unexpected token < in JSON at position 0").

Import Timetable.

Definition entry (ds : gset Day) (start finish : Z) (type : EntryType)
  : ScheduleEntry :=
  {| days := ds; start := start; finish := finish; type := type;
     room := ""; instructor := "" |}.

Definition section_of (subject code id : string) (schedule : list ScheduleEntry)
  : Section :=
  {| id := id; sec_subject := subject; sec_course_code := code;
     schedule := schedule; seats := 10; waitlist := 0; online := false |}.

(** Data whose sections carry no component type. *)
Definition no_component (s : Section) : unit := ().

(** Data whose sections tell their component type by the type of their
    first non-exam entry. *)
Definition component_of_schedule (s : Section) : option EntryType :=
  type <$> head (filter (λ e, non_exam e = true) (schedule s)).

(** The sections of the specification's scenarios. *)
Definition S1 : Section :=
  section_of "CPSC" "1050" "S1" [entry {[Mon]} (at_time 9 0) (at_time 10 0) Lecture].
Definition S2 : Section :=
  section_of "CPSC" "1050" "S2" [entry {[Mon]} (at_time 9 30) (at_time 10 30) Lecture].
Definition S3 : Section :=
  section_of "MATH" "1171" "S3" [entry {[Tue]} (at_time 9 0) (at_time 10 0) Lecture].
Definition S4 : Section :=
  section_of "MATH" "1171" "S4" [entry {[Mon]} (at_time 9 30) (at_time 10 30) Lecture].

Definition CourseA : Course :=
  {| subject := "CPSC"; course_code := "1050"; sections := [S1; S2] |}.
Definition CourseB : Course :=
  {| subject := "MATH"; course_code := "1171"; sections := [S3] |}.
Definition CourseB' : Course :=
  {| subject := "MATH"; course_code := "1171"; sections := [S3; S4] |}.
Definition CourseA1 : Course :=
  {| subject := "CPSC"; course_code := "1050"; sections := [S1] |}.
Definition CourseB4 : Course :=
  {| subject := "MATH"; course_code := "1171"; sections := [S4] |}.


(** A course with two lectures and two labs. *)
Definition L1 : Section :=
  section_of "CHEM" "1120" "L1" [entry {[Mon; Wed]} (at_time 9 0) (at_time 10 0) Lecture].
Definition L2 : Section :=
  section_of "CHEM" "1120" "L2" [entry {[Tue; Thu]} (at_time 9 0) (at_time 10 0) Lecture].
Definition B1 : Section :=
  section_of "CHEM" "1120" "B1" [entry {[Fri]} (at_time 13 0) (at_time 16 0) Lab].
Definition B2 : Section :=
  section_of "CHEM" "1120" "B2" [entry {[Mon]} (at_time 9 30) (at_time 12 30) Lab].

Definition CourseLab : Course :=
  {| subject := "CHEM"; course_code := "1120"; sections := [L1; B1; L2; B2] |}.

(** Back-to-back classes on a Monday. *)
Definition until_ten : ScheduleEntry :=
  entry {[Mon]} (at_time 9 0) (at_time 10 0) Lecture.
Definition from_ten : ScheduleEntry :=
  entry {[Mon]} (at_time 10 0) (at_time 11 0) Lab.

(** The section identifiers of an enumeration, for display. *)
Definition ids (l : list (Combination * bool)) : list (list string * bool) :=
  (λ p : Combination * bool, (id <$> p.1, p.2)) <$> l.

End Samples.

(** * Properties *)

(** ** The section browser *)

Module SectionSearchFacts.
Import JS SectionSearch.

(** *** [indexOf] and the duplicate filter *)









(** First-occurrence order: what a longer input adds comes after, and only
    what is new. *)
Lemma dedup_with_set_app (seen : gset string) (l1 l2 : list string) :
  dedup_with_set seen (l1 ++ l2)
  = dedup_with_set seen l1 ++ dedup_with_set (list_to_set l1 ∪ seen) l2.
Proof.
  revert seen. induction l1 as [|y l1 IH]; intros seen; simpl.
  - by rewrite (left_id_L ∅ (∪)).
  - destruct (decide (y ∈ seen)) as [Hin|Hnin].
    + rewrite IH. do 2 f_equal. apply set_eq. intros z.
      rewrite !elem_of_union, elem_of_singleton.
      split; [tauto|]. intros [[->|?]|?]; tauto.
    + simpl. rewrite IH. do 3 f_equal. apply set_eq. intros z.
      rewrite !elem_of_union, elem_of_singleton. tauto.
Qed.

Lemma join_nil (sep : string) : join sep [] = "".
Proof. done. Qed.


(** *** The query string *)

Lemma sent_spec (v : Value) :
  sent v = true ↔ v ≠ Undefined ∧ v ≠ Str "" ∧ v ≠ Bool false.
Proof.
  unfold sent, strict_neq.
  rewrite !andb_true_iff, !bool_decide_eq_true. tauto.
Qed.

Lemma sent_toString (v : Value) : sent v = true → is_Some (toString v).
Proof. destruct v as [| | |[]]; simpl; eauto. by intros [=]. Qed.

(** The loop never throws, and appends the kept entries in their order. *)
Lemma forEach_entry_filter (es : list (Key * Value)) (q : URLSearchParams) :
  ∃ q', forEach_entry es q = Some (q ++ q') ∧
    ∀ name s, (name, s) ∈ q' ↔
      ∃ k v, (k, v) ∈ es ∧ name = key_name k ∧ sent v = true
             ∧ toString v = Some s.
Proof.
  revert q. induction es as [|[k v] es IH]; intros q; simpl.
  - exists []. rewrite app_nil_r. split; [done|].
    intros name s. rewrite elem_of_nil. split; [done|].
    intros (k & v & Hin & _). by apply elem_of_nil in Hin.
  - destruct (sent v) eqn:Hsent.
    + destruct (sent_toString v Hsent) as [s0 Hs0]. rewrite Hs0.
      destruct (IH (append q (key_name k) s0)) as (q' & Hq' & Hmem).
      exists ((key_name k, s0) :: q'). split.
      { rewrite Hq'. unfold append. by rewrite <- app_assoc. }
      intros name s. rewrite elem_of_cons, Hmem. split.
      * intros [Heq|(k' & v' & Hin & ?)].
        -- simplify_eq. exists k, v. rewrite elem_of_cons. auto.
        -- exists k', v'. rewrite elem_of_cons. auto.
      * intros (k' & v' & Hin & Hname & Hs & Hstr).
        apply elem_of_cons in Hin as [Heq|Hin].
        -- left. simplify_eq. congruence.
        -- right. eauto 6.
    + destruct (IH q) as (q' & Hq' & Hmem).
      exists q'. split; [done|].
      intros name s. rewrite Hmem. split.
      * intros (k' & v' & Hin & ?). exists k', v'. rewrite elem_of_cons. auto.
      * intros (k' & v' & Hin & Hname & Hs & Hstr).
        apply elem_of_cons in Hin as [Heq|Hin]; [simplify_eq; congruence|eauto 6].
Qed.

Lemma key_name_inj (k1 k2 : Key) : key_name k1 = key_name k2 → k1 = k2.
Proof. destruct k1, k2; simpl; intros [=]; reflexivity. Qed.

(** An object holds one value per key. *)
Lemma well_formed_functional (params : SearchParams) (k : Key) (v1 v2 : Value) :
  well_formed params → (k, v1) ∈ params → (k, v2) ∈ params → v1 = v2.
Proof.
  unfold well_formed. induction params as [|[k' v'] params IH]; simpl.
  - intros _ Hin. by apply elem_of_nil in Hin.
  - intros Hnd H1 H2. apply NoDup_cons in Hnd as [Hfresh Hnd].
    apply elem_of_cons in H1 as [E1|H1];
      apply elem_of_cons in H2 as [E2|H2]; simplify_eq; [done| | |by apply IH].
    + destruct Hfresh. apply list_elem_of_fmap. by exists (k', v2).
    + destruct Hfresh. apply list_elem_of_fmap. by exists (k', v1).
Qed.

(** C6. The query string of a search holds exactly the parameters whose
    value is defined, non-empty and not [false], each under its own name
    with its value as text; building it never throws; a parameter set to
    [false] is left out, a parameter set to [true] is sent. *)
Theorem queryParams_sends_exactly (params : SearchParams) :
  well_formed params →
  ∃ q, queryParams params = Some q
    ∧ (∀ name s, (name, s) ∈ q ↔
         ∃ k v, (k, v) ∈ params ∧ name = key_name k
                ∧ v ≠ Undefined ∧ v ≠ Str "" ∧ v ≠ Bool false
                ∧ toString v = Some s)
    ∧ (∀ k, (k, Bool false) ∈ params → key_name k ∉ q.*1)
    ∧ (∀ k, (k, Bool true) ∈ params → (key_name k, "true") ∈ q).
Proof.
  intros Hwf. unfold queryParams.
  destruct (forEach_entry_filter params []) as (q & Hq & Hmem).
  exists q. split; [done|].
  assert (Hexact : ∀ name s, (name, s) ∈ q ↔
    ∃ k v, (k, v) ∈ params ∧ name = key_name k
           ∧ v ≠ Undefined ∧ v ≠ Str "" ∧ v ≠ Bool false
           ∧ toString v = Some s).
  { intros name s. rewrite Hmem. split.
    - intros (k & v & Hin & Hname & Hsent & Hs).
      apply sent_spec in Hsent. exists k, v. tauto.
    - intros (k & v & Hin & Hname & H1 & H2 & H3 & Hs).
      exists k, v. rewrite sent_spec. tauto. }
  split; [done|]. split.
  - intros k Hk Hin. apply list_elem_of_fmap in Hin as [[name s] [Hname Hin]].
    simpl in Hname. subst name.
    apply Hexact in Hin as (k' & v & Hin & Hname & _ & _ & Hfalse & _).
    apply key_name_inj in Hname as <-.
    by rewrite (well_formed_functional params k v (Bool false)) in Hfalse.
  - intros k Hk. apply Hexact. exists k, (Bool true). by repeat split.
Qed.

(** *** [handleInputChange] *)

Lemma lookup_set_key_eq (k : Key) (v : Value) (obj : SearchParams) :
  lookup_key k (set_key k v obj) = Some v.
Proof.
  induction obj as [|[k' v'] obj IH]; simpl.
  - by rewrite decide_True.
  - destruct (decide (k' = k)); simpl.
    + by rewrite decide_True.
    + by rewrite decide_False.
Qed.

Lemma lookup_set_key_ne (k k' : Key) (v : Value) (obj : SearchParams) :
  k' ≠ k → lookup_key k' (set_key k v obj) = lookup_key k' obj.
Proof.
  intros Hne. induction obj as [|[k0 v0] obj IH]; simpl.
  - by rewrite decide_False.
  - destruct (decide (k0 = k)) as [->|]; simpl.
    + by rewrite !decide_False.
    + by rewrite IH.
Qed.

Lemma set_key_keys (k : Key) (v : Value) (obj : SearchParams) (k' : Key) :
  k' ∈ (set_key k v obj).*1 ↔ k' = k ∨ k' ∈ obj.*1.
Proof.
  induction obj as [|[k0 v0] obj IH]; simpl.
  - rewrite list_elem_of_singleton, elem_of_nil. tauto.
  - destruct (decide (k0 = k)) as [->|]; simpl.
    + rewrite !elem_of_cons. tauto.
    + rewrite !elem_of_cons, IH. tauto.
Qed.

(** Setting a property keeps the keys of an object distinct. *)
Lemma set_key_well_formed (k : Key) (v : Value) (obj : SearchParams) :
  well_formed obj → well_formed (set_key k v obj).
Proof.
  unfold well_formed. induction obj as [|[k0 v0] obj IH]; simpl; intros Hnd.
  - apply NoDup_singleton.
  - apply NoDup_cons in Hnd as [Hfresh Hnd].
    destruct (decide (k0 = k)) as [->|Hne]; simpl.
    + by apply NoDup_cons.
    + apply NoDup_cons. split; [|by apply IH].
      rewrite set_key_keys. intros [?|?]; [congruence|done].
Qed.

Lemma handleInputChange_well_formed (key : Key) (value : Value) (st : SearchParams) :
  well_formed st → well_formed (handleInputChange key value st).
Proof.
  intros Hwf. unfold handleInputChange, handleInputChange_updates, apply_updates.
  destruct (decide (key = k_page)); simpl; auto using set_key_well_formed.
Qed.

(** C10. A change of a key other than ['page'] leaves the state with that
    key at the new value, ['page'] at [1], and every other property as it
    was; a change of ['page'] changes ['page'] only. *)
Theorem handleInputChange_frame (key : Key) (value : Value) (st : SearchParams) :
  (key ≠ k_page →
     lookup_key k_page (handleInputChange key value st) = Some (Num 1)
     ∧ lookup_key key (handleInputChange key value st) = Some value
     ∧ ∀ k', k' ≠ key → k' ≠ k_page →
         lookup_key k' (handleInputChange key value st) = lookup_key k' st)
  ∧ (key = k_page →
     lookup_key k_page (handleInputChange key value st) = Some value
     ∧ ∀ k', k' ≠ k_page →
         lookup_key k' (handleInputChange key value st) = lookup_key k' st).
Proof.
  unfold handleInputChange, handleInputChange_updates, apply_updates.
  split; intros Hkey.
  - rewrite decide_False by done. simpl. split; [|split].
    + apply lookup_set_key_eq.
    + rewrite lookup_set_key_ne by done. apply lookup_set_key_eq.
    + intros k' Hk Hp. by rewrite !lookup_set_key_ne.
  - subst key. rewrite decide_True by done. simpl. split.
    + apply lookup_set_key_eq.
    + intros k' Hp. by rewrite lookup_set_key_ne.
Qed.

(** *** The instructor and room cells *)


(** *** The properties at the sample data *)

Example queryParams_search_state :
  queryParams Samples.search_state
  = Some [("page", "1"); ("sections_per_page", "50"); ("subject", "CPSC");
          ("online", "true")].
Proof. reflexivity. Qed.

Lemma queryParams_sends_exactly_witness :
  well_formed Samples.search_state
  ∧ ∃ q, queryParams Samples.search_state = Some q
      ∧ (key_name k_attr_ar ∉ q.*1)
      ∧ (key_name k_online, "true") ∈ q.
Proof.
  assert (Hwf : well_formed Samples.search_state) by compute_done.
  split; [exact Hwf|].
  destruct (queryParams_sends_exactly Samples.search_state Hwf)
    as (q & Hq & _ & Hfalse & Htrue).
  exists q. split; [exact Hq|]. split.
  - apply Hfalse. compute_done.
  - apply Htrue. compute_done.
Defined.

Lemma handleInputChange_frame_witness :
  k_subject ≠ k_page
  ∧ lookup_key k_page
      (handleInputChange k_subject (Str "MATH")
         (handleInputChange k_page (Str "3") Samples.search_state))
    = Some (Num 1).
Proof.
  assert (Hne : k_subject ≠ k_page) by discriminate.
  split; [exact Hne|].
  apply (handleInputChange_frame k_subject (Str "MATH")
           (handleInputChange k_page (Str "3") Samples.search_state)).
  exact Hne.
Defined.

Example cells_taught_section :
  instructorCell Samples.taught_section = "A. Lee, B. Wong"
  ∧ roomCell Samples.taught_section = "A130, B019".
Proof. split; reflexivity. Qed.

(** A blank name alone also reads as no name: the joined text is empty. *)
Example cells_blank_instructor :
  instructorList (Samples.listed_section [Samples.meeting "Lecture" "" "A130"])
  = [""]
  ∧ instructorCell (Samples.listed_section [Samples.meeting "Lecture" "" "A130"])
    = "TBA".
Proof. split; reflexivity. Qed.


End SectionSearchFacts.

(** ** The timetable composer *)

Module ComposerFacts.
Import Composer.

Lemma attach_fulfilled (sd : SectionsResponse) (c0 c : Course) :
  attach sd c0 = Fulfilled c →
  ∃ all, sections_prop sd = Some all
    ∧ subject c = subject c0 ∧ course_code c = course_code c0
    ∧ title c = title c0
    ∧ sections c = filter (λ s, belongs_to c s = true) all.
Proof.
  unfold attach. destruct (sections_prop sd) as [all|]; [|done].
  intros [= <-]. by exists all.
Qed.

(** A loop that finishes has run the callback on every course, in order. *)
Lemma forEach_course_fulfilled (cs merged : list Course) (sd : SectionsResponse) :
  forEach_course cs sd = Fulfilled merged →
  Forall2 (λ c0 c, attach sd c0 = Fulfilled c) cs merged.
Proof.
  revert merged. induction cs as [|c0 cs IH]; intros merged; simpl.
  - intros [= <-]. constructor.
  - destruct (attach sd c0) as [c|] eqn:Hc; [|done]. simpl.
    destruct (forEach_course cs sd) as [rest|]; [|done]. simpl.
    intros [= <-]. constructor; [done|by apply IH].
Qed.

(** The loop throws exactly when there is a course to visit and the
    sections body has no [sections] array. *)
Lemma forEach_course_rejected (cs : list Course) (sd : SectionsResponse) (m : string) :
  forEach_course cs sd = Rejected m ↔ cs ≠ [] ∧ sections_prop sd = None
                                       ∧ m = TypeError_undefined "filter".
Proof.
  induction cs as [|c0 cs IH]; simpl.
  - split; [done|]. by intros [? _].
  - unfold attach at 1. destruct (sections_prop sd) as [all|] eqn:Hsd; simpl.
    + destruct (forEach_course cs sd) as [rest|m'] eqn:Hrest; simpl.
      * split; [done|]. by intros (_ & ? & _).
      * split; [|by intros (_ & ? & _)].
        intros [= ->]. destruct IH as [IH _].
        by destruct (IH eq_refl) as (_ & ? & _).
    + split; [by intros [= <-]|]. by intros (_ & _ & ->).
Qed.

Lemma belongs_to_spec (c : Course) (s : Section) :
  belongs_to c s = true
  ↔ sec_subject s = subject c ∧ sec_course_code s = course_code c.
Proof.
  unfold belongs_to. by rewrite andb_true_iff, !bool_decide_eq_true.
Qed.

(** What a successful [try] block has read. *)
Lemma tryBlock_fulfilled coursesFetch sectionsFetch race (merged : list Course) :
  tryBlock coursesFetch sectionsFetch race = Fulfilled merged →
  ∃ cs sd, coursesFetch = Fulfilled (Fulfilled {| courses_prop := Some cs |})
    ∧ sectionsFetch = Fulfilled (Fulfilled sd)
    ∧ forEach_course cs sd = Fulfilled merged.
Proof.
  unfold tryBlock.
  destruct coursesFetch as [[[[cs|]]|]|], sectionsFetch as [[sd|]|], race;
    simpl; try done.
  all: destruct (forEach_course cs sd) as [m|] eqn:Hloop; simpl; [|done].
  all: intros [= <-]; by exists cs, sd.
Qed.

(** C7. After a fetch that completes without error, the courses held by
    the component are the fetched courses, in order, and the sections of
    each are exactly the fetched sections with the course's subject and
    course code, in the order fetched. *)
Theorem fetchData_attaches_sections
    coursesFetch sectionsFetch race (st : State) (merged : list Course) :
  tryBlock coursesFetch sectionsFetch race = Fulfilled merged →
  courses (fetchData coursesFetch sectionsFetch race st) = merged
  ∧ error (fetchData coursesFetch sectionsFetch race st) = error st
  ∧ ∃ cs, coursesFetch = Fulfilled (Fulfilled {| courses_prop := Some cs |})
      ∧ Forall2 (λ c0 c, subject c = subject c0
                         ∧ course_code c = course_code c0) cs merged
      ∧ ∀ c, c ∈ merged →
          ∃ sd fetched, sectionsFetch = Fulfilled (Fulfilled sd)
            ∧ sections_prop sd = Some fetched
            ∧ sections c
              = filter (λ s, sec_subject s = subject c
                             ∧ sec_course_code s = course_code c) fetched
            ∧ ∀ s, s ∈ sections c ↔
                s ∈ fetched ∧ sec_subject s = subject c
                ∧ sec_course_code s = course_code c.
Proof.
  intros Htry. unfold fetchData. rewrite Htry. simpl.
  split; [done|]. split; [done|].
  apply tryBlock_fulfilled in Htry as (cs & sd & -> & -> & Hloop).
  apply forEach_course_fulfilled in Hloop.
  exists cs. split; [done|]. split.
  - eapply Forall2_impl; [exact Hloop|].
    intros c0 c Hc. apply attach_fulfilled in Hc as (_ & _ & ? & ? & _). done.
  - intros c Hin.
    apply list_elem_of_lookup in Hin as [i Hi].
    destruct (Forall2_lookup_r _ _ _ _ _ Hloop Hi) as (c0 & _ & Hc).
    apply attach_fulfilled in Hc as (fetched & Hsd & _ & _ & _ & Hsecs).
    exists sd, fetched. split; [done|]. split; [done|].
    assert (Hfilter : sections c
      = filter (λ s, sec_subject s = subject c
                     ∧ sec_course_code s = course_code c) fetched).
    { rewrite Hsecs. apply list_filter_iff. intros s. apply belongs_to_spec. }
    split; [done|]. intros s. rewrite Hfilter, list_elem_of_filter. tauto.
Qed.

Lemma failure_message_truthy (m : string) :
  truthy (Some ("Failed to fetch data: " +:+ m)) = true.
Proof. done. Qed.

(** C8. When either request fails (the fetch rejects or its body does not
    parse), the fetch ends in the error state: the error is set, the
    courses held are untouched, and the component renders the error
    message in place of the normal view. *)
Theorem fetchData_failure_is_total
    coursesFetch sectionsFetch race (st : State) :
  failed coursesFetch ∨ failed sectionsFetch →
  ∃ message,
    tryBlock coursesFetch sectionsFetch race = Rejected message
    ∧ error (fetchData coursesFetch sectionsFetch race st)
      = Some ("Failed to fetch data: " +:+ message)
    ∧ courses (fetchData coursesFetch sectionsFetch race st) = courses st
    ∧ isLoading (fetchData coursesFetch sectionsFetch race st) = false
    ∧ render (fetchData coursesFetch sectionsFetch race st)
      = ErrorView ("Failed to fetch data: " +:+ message).
Proof.
  intros Hfailed.
  assert (Hrej : ∃ message,
    tryBlock coursesFetch sectionsFetch race = Rejected message).
  { unfold tryBlock.
    destruct coursesFetch as [[cd|m1]|m1], sectionsFetch as [[sd|m2]|m2], race;
      simpl in *; eauto; tauto. }
  destruct Hrej as [message Hrej]. exists message.
  unfold fetchData, render. rewrite Hrej. simpl. done.
Qed.

(** A sections body of another shape goes unnoticed when there is no
    course to attach sections to: the callback never runs. *)
Example tryBlock_no_courses_no_sections_array (race : Race) :
  tryBlock (Fulfilled (Fulfilled {| courses_prop := Some [] |}))
           (Fulfilled (Fulfilled {| sections_prop := None |})) race
  = Fulfilled [].
Proof. by destruct race. Qed.

(** *** The properties at the sample data *)

Lemma fetchData_attaches_sections_witness :
  tryBlock Samples.courses_ok Samples.sections_ok CoursesFirst
  = Fulfilled Samples.merged_courses
  ∧ courses (fetchData Samples.courses_ok Samples.sections_ok CoursesFirst
               initialState)
    = Samples.merged_courses.
Proof.
  assert (Htry : tryBlock Samples.courses_ok Samples.sections_ok CoursesFirst
                 = Fulfilled Samples.merged_courses) by reflexivity.
  split; [exact Htry|].
  apply (fetchData_attaches_sections _ _ _ initialState _ Htry).
Defined.

Lemma fetchData_failure_is_total_witness :
  (failed Samples.courses_ok ∨ failed Samples.sections_malformed)
  ∧ ∃ message,
      render (fetchData Samples.courses_ok Samples.sections_malformed
                CoursesFirst initialState)
      = ErrorView ("Failed to fetch data: " +:+ message).
Proof.
  assert (Hfailed : failed Samples.courses_ok
                    ∨ failed Samples.sections_malformed).
  { right. exact I. }
  split; [exact Hfailed|].
  destruct (fetchData_failure_is_total Samples.courses_ok
              Samples.sections_malformed CoursesFirst initialState Hfailed)
    as (message & _ & _ & _ & _ & Hrender).
  exists message. exact Hrender.
Defined.

End ComposerFacts.

(** ** Conflict test and combination enumerator *)

Module TimetableFacts.
Import Timetable.

(** *** Conflict test *)

Lemma share_day_spec (a b : ScheduleEntry) :
  days a ∩ days b ≠ ∅ ↔ ∃ d, d ∈ days a ∧ d ∈ days b.
Proof.
  split.
  - intros Hne. apply set_choose_L in Hne as [d Hd].
    exists d. by apply elem_of_intersection in Hd.
  - intros (d & Ha & Hb) Hempty.
    assert (Hd : d ∈ days a ∩ days b) by by apply elem_of_intersection.
    rewrite Hempty in Hd. by apply not_elem_of_empty in Hd.
Qed.

Lemma intervals_intersect_spec (s1 e1 s2 e2 : Z) :
  (Z.max s1 s2 < Z.min e1 e2)%Z
  ↔ ∃ t : Z, (s1 ≤ t < e1)%Z ∧ (s2 ≤ t < e2)%Z.
Proof.
  split.
  - intros Hlt. exists (Z.max s1 s2). lia.
  - intros (t & H1 & H2). lia.
Qed.

(** On entries that start before they end, this is the usual test: each
    starts before the other ends. *)
Lemma intervals_intersect_conventional (s1 e1 s2 e2 : Z) :
  (s1 < e1)%Z → (s2 < e2)%Z →
  (Z.max s1 s2 < Z.min e1 e2)%Z ↔ (s1 < e2)%Z ∧ (s2 < e1)%Z.
Proof. lia. Qed.

(** C2. Two non-exam entries conflict exactly when some day of the week
    belongs to both and some instant belongs to both half-open intervals
    [start, end); an entry that ends when the other starts (at 10:00, say)
    does not conflict with it, whatever their days. *)
Theorem conflict_iff_common_day_and_instant (a b : ScheduleEntry) :
  type a ≠ Exam → type b ≠ Exam →
  (conflict a b = true ↔
     (∃ d, d ∈ days a ∧ d ∈ days b)
     ∧ (∃ t : Z, (start a ≤ t < finish a)%Z ∧ (start b ≤ t < finish b)%Z))
  ∧ (finish a = start b → conflict a b = false).
Proof.
  intros _ _. unfold conflict. split.
  - rewrite andb_true_iff, !bool_decide_eq_true.
    by rewrite share_day_spec, intervals_intersect_spec.
  - intros Hend. apply andb_false_iff. right.
    apply bool_decide_eq_false. lia.
Qed.

Lemma common_day_test_comm (a b : ScheduleEntry) :
  bool_decide (days a ∩ days b ≠ ∅) = bool_decide (days b ∩ days a ≠ ∅).
Proof. by rewrite (comm_L (∩) (days a)). Qed.

Lemma interval_test_comm (s1 e1 s2 e2 : Z) :
  bool_decide (Z.max s1 s2 < Z.min e1 e2)%Z
  = bool_decide (Z.max s2 s1 < Z.min e2 e1)%Z.
Proof. by rewrite Z.max_comm, Z.min_comm. Qed.

(** C3. The conflict test is symmetric: the two orders of any two Schedule
    entries get the same answer. *)
Theorem conflict_symmetric (a b : ScheduleEntry) :
  conflict a b = conflict b a.
Proof.
  unfold conflict.
  rewrite (common_day_test_comm a b).
  by rewrite (interval_test_comm (start a) (finish a)).
Qed.

(** *** The product of the groups *)

Lemma product_cons {A} (g : list A) (rest : list (list A)) :
  product (g :: rest) = s ← g; (s ::.) <$> product rest.
Proof. done. Qed.

Lemma length_product {A} (gs : list (list A)) :
  length (product gs) = choices gs.
Proof.
  induction gs as [|g rest IH]; [done|].
  rewrite product_cons. simpl choices. rewrite <- IH. clear IH.
  induction g as [|s g IHg]; [done|].
  simpl. rewrite length_app, length_fmap. by f_equal.
Qed.

Lemma choices_zero {A} (gs : list (list A)) :
  [] ∈ gs → choices gs = 0.
Proof.
  induction gs as [|g rest IH]; intros Hin.
  - by apply elem_of_nil in Hin.
  - apply elem_of_cons in Hin as [<-|Hin]; simpl; [done|].
    rewrite IH by done. lia.
Qed.

(** A course without sections is one empty group. *)
Lemma groups_no_sections `{EqDecision C} (component : Section → C) (c : Course) :
  sections c = [] → groups component c = [[]].
Proof.
  intros Hnil. unfold groups, by_component. by rewrite Hnil.
Qed.

Lemma all_groups_elem `{EqDecision C} (component : Section → C)
    (sel : Selection) (g : list Section) :
  g ∈ all_groups component sel ↔ ∃ c, c ∈ sel ∧ g ∈ groups component c.
Proof.
  unfold all_groups. rewrite list_elem_of_bind.
  split; intros (c & ? & ?); by exists c.
Qed.

Lemma enumerate_empty_group `{EqDecision C} (component : Section → C)
    (sel : Selection) :
  [] ∈ all_groups component sel → enumerate component sel = [].
Proof.
  intros Hin. unfold enumerate. apply nil_length_inv.
  by rewrite length_fmap, length_product, choices_zero.
Qed.

(** A selected course without sections leaves no combination at all. *)
Lemma enumerate_course_without_sections `{EqDecision C}
    (component : Section → C) (sel : Selection) (c : Course) :
  c ∈ sel → sections c = [] → enumerate component sel = [].
Proof.
  intros Hin Hnil. apply enumerate_empty_group.
  apply all_groups_elem. exists c. split; [done|].
  rewrite groups_no_sections by done. by apply list_elem_of_singleton.
Qed.


(** *** The order of enumeration *)

(** Position [k] within a run of blocks of [n] elements each: block
    [k / n], offset [k mod n]. *)
Lemma lookup_blocks {A B} (f : A → list B) (g : list A) (n k : nat) :
  0 < n → (∀ s, length (f s) = n) →
  (g ≫= f) !! k = s ← g !! (k / n); f s !! (k mod n).
Proof.
  intros Hn Hlen. revert k. induction g as [|s g IH]; intros k.
  - done.
  - rewrite bind_cons. destruct (decide (k < n)) as [Hlt|Hge].
    + rewrite lookup_app_l by by rewrite Hlen.
      by rewrite Nat.div_small, Nat.mod_small.
    + rewrite lookup_app_r by (rewrite Hlen; lia).
      rewrite Hlen, IH.
      assert (Hk : k = (k - n) + 1 * n) by lia.
      assert (Hdiv : k / n = S ((k - n) / n)).
      { rewrite Hk at 1. rewrite Nat.div_add by lia. lia. }
      assert (Hmod : k mod n = (k - n) mod n).
      { rewrite Hk at 1. by rewrite Nat.Div0.mod_add. }
      by rewrite Hdiv, Hmod.
Qed.

(** The combination at each position is the one its mixed-radix digits
    pick; past the last position there is none. *)
Lemma product_lookup {A} (gs : list (list A)) (k : nat) :
  product gs !! k = pick gs k.
Proof.
  revert k. induction gs as [|g rest IH]; intros k.
  - by destruct k.
  - rewrite product_cons. simpl pick.
    destruct (decide (choices rest = 0)) as [Hz|Hnz].
    + assert (Hnil : product rest = []).
      { apply nil_length_inv. by rewrite length_product. }
      rewrite Hz, Hnil. simpl. rewrite <- IH, Hnil.
      replace (g ≫= λ _ : A, @nil (list A)) with (@nil (list A)).
      * by destruct (g !! 0).
      * clear. induction g; [done|]. by rewrite bind_cons.
    + rewrite (lookup_blocks _ g (choices rest)); [|lia|].
      * destruct (g !! (k / choices rest)) as [s|]; [|done]. simpl.
        rewrite list_lookup_fmap, IH.
        by destruct (pick rest (k mod choices rest)).
      * intros s. by rewrite length_fmap, length_product.
Qed.

(** The combinations of an enumeration are the product of the groups, and
    each flag is the validity of its combination. *)
Lemma combinations_enumerate `{EqDecision C} (component : Section → C)
    (sel : Selection) :
  (enumerate component sel).*1 = product (all_groups component sel).
Proof.
  unfold enumerate. rewrite <- list_fmap_compose.
  rewrite (list_fmap_ext _ Datatypes.id); [apply list_fmap_id|done].
Qed.

Lemma fmap_cons_bind {A B} (s : B) (f : A → list (list B)) (l : list A) :
  (s ::.) <$> (l ≫= f) = l ≫= (λ y, (s ::.) <$> f y).
Proof.
  induction l as [|y l IH]; [done|].
  by rewrite !bind_cons, fmap_app, IH.
Qed.

(** The groups that come first vary slowest, and their sections come first
    in a combination. *)
Lemma product_app {A} (gs1 gs2 : list (list A)) :
  product (gs1 ++ gs2) = x ← product gs1; (x ++.) <$> product gs2.
Proof.
  induction gs1 as [|g gs1 IH].
  - simpl. by rewrite list_fmap_id, app_nil_r.
  - change ((g :: gs1) ++ gs2) with (g :: (gs1 ++ gs2)).
    rewrite !product_cons, IH. clear IH.
    induction g as [|s g IHg]; [done|].
    rewrite !bind_cons, bind_app, IHg. f_equal.
    rewrite fmap_cons_bind, list_fmap_bind.
    apply list_bind_ext; [|done]. intros y. simpl.
    by rewrite <- list_fmap_compose.
Qed.

Lemma product_foldr {A} (gs : list (list A)) :
  product gs = foldr (λ g acc, s ← g; (s ::.) <$> acc) [[]] gs.
Proof. induction gs as [|g gs IH]; [done|]. simpl. by rewrite IH. Qed.

Lemma product_single {A} (g : list A) : product [g] = (λ s, [s]) <$> g.
Proof.
  simpl. induction g as [|s g IH]; [done|].
  by rewrite bind_cons, fmap_cons, <- IH.
Qed.

Lemma elem_of_distinct `{EqDecision C} (l : list C) (x : C) :
  x ∈ distinct l ↔ x ∈ l.
Proof.
  induction l as [|y l IH]; [done|]. simpl.
  rewrite !elem_of_cons, list_elem_of_filter, IH.
  destruct (decide (x = y)); tauto.
Qed.

Lemma remove_dups_snoc `{EqDecision C} (l : list C) (x : C) :
  remove_dups (l ++ [x]) = filter (λ y, y ≠ x) (remove_dups l) ++ [x].
Proof.
  induction l as [|y l IH]; simpl.
  - destruct (decide_rel elem_of x []) as [Hin|_]; [|done].
    by apply elem_of_nil in Hin.
  - rewrite IH.
    destruct (decide_rel elem_of y (l ++ [x])) as [H1|H1],
             (decide_rel elem_of y l) as [H2|H2]; try done.
    + apply elem_of_app in H1 as [H1|H1]; [done|].
      apply list_elem_of_singleton in H1 as ->.
      by rewrite filter_cons_False by (by intros []).
    + destruct H1. apply elem_of_app. by left.
    + rewrite filter_cons_True; [done|].
      intros ->. apply H1, elem_of_app. right. by left.
Qed.

(** [distinct] keeps the first occurrence of each value, in order: what
    [remove_dups], which keeps the last ones, gives on the reversed list. *)
Lemma distinct_first_occurrences `{EqDecision C} (l : list C) :
  distinct l = reverse (remove_dups (reverse l)).
Proof.
  induction l as [|x l IH]; [done|]. simpl.
  rewrite reverse_cons, remove_dups_snoc, reverse_snoc, IH.
  by rewrite filter_reverse.
Qed.

Lemma distinct_constant `{EqDecision C} (l : list C) (k : C) :
  (∀ y, y ∈ l → y = k) → l ≠ [] → distinct l = [k].
Proof.
  intros Hall Hne. destruct l as [|x l]; [done|]. simpl.
  rewrite (Hall x) by by left. f_equal.
  induction (distinct l) as [|y d IH] eqn:Hd in Hall |- *; [done|].
  clear IH.
  assert (Hfilter : ∀ d', (∀ y, y ∈ d' → y = k) →
                          filter (λ y, y ≠ k) d' = []).
  { induction d' as [|z d' IH']; [done|]. intros Hd'.
    rewrite filter_cons_False by (intros Hz; apply Hz, Hd'; by left).
    apply IH'. intros y' Hy'. apply Hd'. by right. }
  apply Hfilter. intros z Hz. apply Hall. right.
  apply elem_of_distinct. by rewrite Hd.
Qed.

Lemma all_groups_singleton `{EqDecision C} (component : Section → C)
    (c : Course) :
  all_groups component [c] = groups component c.
Proof. unfold all_groups. simpl. apply app_nil_r. Qed.

Lemma filter_keeps_all {A} (P : A → Prop) `{∀ x, Decision (P x)} (l : list A) :
  (∀ x, x ∈ l → P x) → filter P l = l.
Proof.
  induction l as [|x l IH]; intros Hall; [done|].
  rewrite filter_cons_True by (apply Hall; by left).
  rewrite IH; [done|]. intros y Hy. apply Hall. by right.
Qed.

(** The groups of a course that has sections: one per component type. *)
Lemma groups_by_component `{EqDecision C} (component : Section → C)
    (c : Course) :
  sections c ≠ [] →
  groups component c
  = (λ k, filter (λ s, component s = k) (sections c))
    <$> distinct (component <$> sections c).
Proof.
  intros Hne. unfold groups, by_component.
  destruct (decide (1 < length ((λ k, filter (λ s, component s = k) (sections c))
                                <$> distinct (component <$> sections c))))
    as [|Hlen]; [done|].
  rewrite length_fmap in Hlen.
  destruct (sections c) as [|s0 secs] eqn:Hsecs; [done|].
  rewrite fmap_cons in Hlen |- *. cbn [distinct] in Hlen |- *.
  remember (filter (λ y, y ≠ component s0) (distinct (component <$> secs)))
    as rest eqn:Hrest.
  destruct rest as [|k ks]; [|simpl in Hlen; lia].
  symmetry in Hrest.
  simpl. f_equal. rewrite filter_cons_True by done. f_equal.
  symmetry. apply filter_keeps_all. intros s Hs.
  destruct (decide (component s = component s0)) as [|Hk]; [done|].
  assert (Hin : component s ∈ filter (λ y, y ≠ component s0)
                                 (distinct (component <$> secs))).
  { apply list_elem_of_filter. split; [done|].
    apply elem_of_distinct, list_elem_of_fmap. by exists s. }
  rewrite Hrest in Hin. by apply elem_of_nil in Hin.
Qed.

(** The groups of a course whose sections all have one component type. *)
Lemma groups_one_component `{EqDecision C} (component : Section → C)
    (c : Course) :
  (∀ s s', s ∈ sections c → s' ∈ sections c → component s = component s') →
  groups component c = [sections c].
Proof.
  intros Hsame. unfold groups, by_component.
  destruct (sections c) as [|s0 secs] eqn:Hsecs; [done|].
  rewrite (distinct_constant _ (component s0)); [done| |done].
  intros y Hy. apply list_elem_of_fmap in Hy as (s & -> & Hs).
  apply Hsame; [done|by left].
Qed.

(** The groups depend on the sections of the courses only. *)
Lemma all_groups_sections `{EqDecision C} (component : Section → C)
    (sel1 sel2 : Selection) :
  sections <$> sel1 = sections <$> sel2 →
  all_groups component sel1 = all_groups component sel2.
Proof.
  revert sel2. induction sel1 as [|c1 sel1 IH]; intros [|c2 sel2] Heq;
    try done.
  rewrite !fmap_cons in Heq. injection Heq as Hc Hsel.
  unfold all_groups. rewrite !bind_cons.
  fold (all_groups component sel1). fold (all_groups component sel2).
  rewrite (IH sel2 Hsel). f_equal. unfold groups. by rewrite Hc.
Qed.

(** C4. The enumeration is fixed by the order of the Selection and of each
    course's sections, and by nothing else. Two Selections with the same
    lists of sections in the same order give the same list of combinations
    and flags. The courses that come first in the Selection vary slowest
    and have their sections first in each combination. For one course the
    component types go by first occurrence among its sections, the first
    type varying slowest, and the sections of a type in their own order; a
    course with one component type gives its sections one by one, in
    order. Position [k] holds the combination picked by the mixed-radix
    digits of [k], and every flag is the validity of its combination. *)
Theorem enumerate_deterministic `{EqDecision C} (component : Section → C)
    (sel1 sel2 : Selection) :
  sections <$> sel1 = sections <$> sel2 →
  enumerate component sel1 = enumerate component sel2
  ∧ enumerate component sel1
    = (λ x, (x, valid x)) <$> (enumerate component sel1).*1
  ∧ (∀ pre post, sel1 = pre ++ post →
       (enumerate component sel1).*1
       = x ← (enumerate component pre).*1;
         (x ++.) <$> (enumerate component post).*1)
  ∧ (∀ c, sections c ≠ [] →
       (enumerate component [c]).*1
       = foldr (λ k acc,
                  s ← filter (λ s, component s = k) (sections c);
                  (s ::.) <$> acc)
           [[]] (reverse (remove_dups (reverse (component <$> sections c)))))
  ∧ (∀ c, (∀ s s', s ∈ sections c → s' ∈ sections c →
                   component s = component s') →
       (enumerate component [c]).*1 = (λ s, [s]) <$> sections c)
  ∧ ∀ k, enumerate component sel1 !! k
         = (λ c, (c, valid c)) <$> pick (all_groups component sel2) k.
Proof.
  intros Hsections.
  assert (Hgroups := all_groups_sections component sel1 sel2 Hsections).
  split; [|split; [|split; [|split; [|split]]]].
  - unfold enumerate. by rewrite Hgroups.
  - by rewrite combinations_enumerate.
  - intros pre post ->. rewrite !combinations_enumerate.
    unfold all_groups. rewrite bind_app. apply product_app.
  - intros c Hne.
    rewrite combinations_enumerate, all_groups_singleton.
    rewrite groups_by_component by done.
    rewrite product_foldr, foldr_fmap.
    by rewrite distinct_first_occurrences.
  - intros c Hsame.
    rewrite combinations_enumerate, all_groups_singleton.
    rewrite groups_one_component by done. apply product_single.
  - intros k. unfold enumerate.
    by rewrite list_lookup_fmap, product_lookup, Hgroups.
Qed.

(** *** Membership in the product, validity under reordering *)

(** A combination takes its sections from the groups, one each, in order. *)
Lemma elem_of_product {A} (gs : list (list A)) (x : list A) :
  x ∈ product gs ↔ Forall2 (λ s g, s ∈ g) x gs.
Proof.
  revert x. induction gs as [|g rest IH]; intros x.
  - simpl. rewrite list_elem_of_singleton. split.
    + intros ->. constructor.
    + apply Forall2_nil_inv_r.
  - rewrite product_cons, list_elem_of_bind. split.
    + intros (s & Hx & Hs). apply list_elem_of_fmap in Hx as (y & -> & Hy).
      constructor; [done|]. by apply IH.
    + intros Hall. apply Forall2_cons_inv_r in Hall as (s & y & Hs & Hy & ->).
      exists s. split; [|done]. apply list_elem_of_fmap. exists y.
      split; [done|]. by apply IH.
Qed.

Lemma elem_of_enumerate `{EqDecision C} (component : Section → C)
    (sel : Selection) (x : Combination) (flag : bool) :
  (x, flag) ∈ enumerate component sel
  ↔ Forall2 (λ s g, s ∈ g) x (all_groups component sel) ∧ flag = valid x.
Proof.
  unfold enumerate. rewrite list_elem_of_fmap. split.
  - intros (y & [= -> ->] & Hy). by apply elem_of_product in Hy.
  - intros [Hx ->]. exists x. split; [done|]. by apply elem_of_product.
Qed.

Lemma forallb_Permutation {A} (f : A → bool) (l1 l2 : list A) :
  l1 ≡ₚ l2 → forallb f l1 = forallb f l2.
Proof.
  induction 1 as [|x l1 l2 _ IH|x y l|l1 l2 l3 _ IH1 _ IH2]; simpl.
  - done.
  - by rewrite IH.
  - by destruct (f x), (f y).
  - by rewrite IH1.
Qed.

Lemma conflict_free_Permutation (es1 es2 : list ScheduleEntry) :
  es1 ≡ₚ es2 → conflict_free es1 = conflict_free es2.
Proof.
  induction 1 as [|e es1 es2 Hp IH|e1 e2 es|es1 es2 es3 _ IH1 _ IH2]; simpl.
  - done.
  - by rewrite IH, (forallb_Permutation _ _ _ Hp).
  - assert (Hsym : conflict e2 e1 = conflict e1 e2).
    { unfold conflict. rewrite (common_day_test_comm e2 e1).
      by rewrite (interval_test_comm (start e2) (finish e2)). }
    rewrite Hsym.
    destruct (conflict e1 e2), (forallb _ es), (forallb _ es); done.
  - by rewrite IH1.
Qed.

(** The validity flag does not depend on the order of the sections. *)
Lemma valid_Permutation (x y : Combination) : x ≡ₚ y → valid x = valid y.
Proof.
  intros Hp. unfold valid, entries. apply conflict_free_Permutation.
  by rewrite Hp.
Qed.

Lemma choices_app {A} (gs1 gs2 : list (list A)) :
  choices (gs1 ++ gs2) = choices gs1 * choices gs2.
Proof.
  induction gs1 as [|g gs1 IH]; simpl; [lia|]. rewrite IH. lia.
Qed.

Lemma all_groups_app `{EqDecision C} (component : Section → C)
    (sel1 sel2 : Selection) :
  all_groups component (sel1 ++ sel2)
  = all_groups component sel1 ++ all_groups component sel2.
Proof. apply bind_app. Qed.

Lemma all_groups_in_place `{EqDecision C} (component : Section → C)
    (pre post : Selection) (c : Course) :
  all_groups component (pre ++ c :: post)
  = all_groups component pre ++ groups component c
    ++ all_groups component post.
Proof. by rewrite all_groups_app. Qed.

Lemma all_groups_moved `{EqDecision C} (component : Section → C)
    (pre post : Selection) (c : Course) :
  all_groups component (pre ++ post ++ [c])
  = all_groups component pre ++ all_groups component post
    ++ groups component c.
Proof.
  rewrite !all_groups_app. unfold all_groups at 3. simpl.
  by rewrite app_nil_r.
Qed.

(** *** Removing a course and adding it again *)

Lemma remove_absent (k : CourseKey) (sel : Selection) :
  k ∉ key <$> sel → remove k sel = sel.
Proof.
  unfold remove. induction sel as [|c sel IH]; [done|].
  rewrite fmap_cons, not_elem_of_cons. intros [Hne Hnin].
  rewrite filter_cons_True by done. by rewrite IH.
Qed.

(** The course leaves its place and comes back last. *)
Lemma add_remove_moves_last (pre post : Selection) (c : Course) :
  unique_keys (pre ++ c :: post) →
  add c (remove (key c) (pre ++ c :: post)) = pre ++ post ++ [c].
Proof.
  unfold unique_keys. rewrite fmap_app, fmap_cons.
  intros Hnd. apply NoDup_app in Hnd as (_ & Hpre & Hpost).
  apply NoDup_cons in Hpost as [Hpost _].
  assert (Hpre' : key c ∉ key <$> pre).
  { intros Hin. apply (Hpre _ Hin). by left. }
  assert (Hrem : remove (key c) (pre ++ c :: post) = pre ++ post).
  { unfold remove. rewrite filter_app, filter_cons_False by (by intros []).
    fold (remove (key c) pre). fold (remove (key c) post).
    by rewrite !remove_absent. }
  rewrite Hrem. unfold add. rewrite decide_False; [by rewrite <- app_assoc|].
  rewrite fmap_app, elem_of_app. tauto.
Qed.

(** Moving the groups of a course to the end reorders each combination. *)
Lemma moved_groups_combination {A} (G1 Gc G2 : list (list A)) (x : list A) :
  Forall2 (λ s g, s ∈ g) x (G1 ++ Gc ++ G2) →
  ∃ x', x' ≡ₚ x ∧ Forall2 (λ s g, s ∈ g) x' (G1 ++ G2 ++ Gc).
Proof.
  intros Hx.
  apply Forall2_app_inv_r in Hx as (x1 & x' & H1 & Hx & ->).
  apply Forall2_app_inv_r in Hx as (xc & x2 & Hc & H2 & ->).
  exists (x1 ++ x2 ++ xc). split.
  - f_equiv. apply (comm (++)).
  - by repeat apply Forall2_app.
Qed.

Lemma restored_groups_combination {A} (G1 Gc G2 : list (list A)) (x : list A) :
  Forall2 (λ s g, s ∈ g) x (G1 ++ G2 ++ Gc) →
  ∃ x', x' ≡ₚ x ∧ Forall2 (λ s g, s ∈ g) x' (G1 ++ Gc ++ G2).
Proof.
  intros Hx.
  apply Forall2_app_inv_r in Hx as (x1 & x' & H1 & Hx & ->).
  apply Forall2_app_inv_r in Hx as (x2 & xc & H2 & Hc & ->).
  exists (x1 ++ xc ++ x2). split.
  - f_equiv. apply (comm (++)).
  - by repeat apply Forall2_app.
Qed.

(** On this selector and enumerator, removing a course of a Selection and
    adding it again moves the course to the end of the Selection. The
    enumerator then yields as many combinations as before, and the same
    ones up to the order of the sections within a combination, each with
    the validity flag it had; the order of enumeration is the original one
    when the course was the last of the Selection. *)
Theorem remove_then_add `{EqDecision C} (component : Section → C)
    (sel : Selection) (c : Course) :
  unique_keys sel → c ∈ sel →
  (∃ pre post, sel = pre ++ c :: post
               ∧ add c (remove (key c) sel) = pre ++ post ++ [c])
  ∧ length (enumerate component (add c (remove (key c) sel)))
    = length (enumerate component sel)
  ∧ (∀ x flag, (x, flag) ∈ enumerate component sel →
       ∃ x', x' ≡ₚ x
         ∧ (x', flag) ∈ enumerate component (add c (remove (key c) sel)))
  ∧ (∀ x flag, (x, flag) ∈ enumerate component (add c (remove (key c) sel)) →
       ∃ x', x' ≡ₚ x ∧ (x', flag) ∈ enumerate component sel)
  ∧ (last sel = Some c →
       enumerate component (add c (remove (key c) sel))
       = enumerate component sel).
Proof.
  intros Hkeys Hin. repeat split.
  - apply list_elem_of_split in Hin as (pre & post & ->).
    exists pre, post. by rewrite add_remove_moves_last.
  - apply list_elem_of_split in Hin as (pre & post & ->).
    rewrite add_remove_moves_last by done.
    unfold enumerate. rewrite !length_fmap, !length_product.
    rewrite (all_groups_moved component), (all_groups_in_place component).
    rewrite !choices_app. lia.
  - apply list_elem_of_split in Hin as (pre & post & ->).
    rewrite add_remove_moves_last by done.
    intros x flag. rewrite elem_of_enumerate, all_groups_in_place.
    intros [Hx ->]. apply moved_groups_combination in Hx as (x' & Hp & Hx').
    exists x'. split; [done|]. apply elem_of_enumerate.
    rewrite all_groups_moved.
    split; [done|]. symmetry. by apply valid_Permutation.
  - apply list_elem_of_split in Hin as (pre & post & ->).
    rewrite add_remove_moves_last by done.
    intros x flag. rewrite elem_of_enumerate, all_groups_moved.
    intros [Hx ->]. apply restored_groups_combination in Hx as (x' & Hp & Hx').
    exists x'. split; [done|]. apply elem_of_enumerate.
    rewrite all_groups_in_place.
    split; [done|]. symmetry. by apply valid_Permutation.
  - intros Hlast. apply last_Some in Hlast as [pre ->].
    by rewrite add_remove_moves_last.
Qed.

(** *** The specification's scenarios *)

(** Course A with S1 (Mon 9-10) and S2 (Mon 9:30-10:30), course B with S3
    (Tue 9-10): two combinations, both valid. *)
Example scenario_different_days :
  Samples.ids (enumerate Samples.no_component [Samples.CourseA; Samples.CourseB])
  = [(["S1"; "S3"], true); (["S2"; "S3"], true)].
Proof. reflexivity. Qed.

(** S1 (Mon 9-10) against a section on Mon 9:30-10:30: flagged invalid. *)
Example scenario_same_day_overlap :
  Samples.ids (enumerate Samples.no_component [Samples.CourseA1; Samples.CourseB4])
  = [(["S1"; "S4"], false)].
Proof. reflexivity. Qed.

(** Lectures and labs of one course are chosen independently. *)
Example scenario_lecture_and_lab :
  Samples.ids (enumerate Samples.component_of_schedule [Samples.CourseLab; Samples.CourseB])
  = [(["L1"; "B1"; "S3"], true); (["L1"; "B2"; "S3"], false);
     (["L2"; "B1"; "S3"], false); (["L2"; "B2"; "S3"], false)].
Proof. reflexivity. Qed.

(** *** The properties at the sample data *)


Lemma conflict_iff_common_day_and_instant_witness :
  type Samples.until_ten ≠ Exam ∧ type Samples.from_ten ≠ Exam
  ∧ finish Samples.until_ten = at_time 10 0
  ∧ start Samples.from_ten = at_time 10 0
  ∧ (∃ d, d ∈ days Samples.until_ten ∧ d ∈ days Samples.from_ten)
  ∧ conflict Samples.until_ten Samples.from_ten = false.
Proof.
  assert (Ha : type Samples.until_ten ≠ Exam) by discriminate.
  assert (Hb : type Samples.from_ten ≠ Exam) by discriminate.
  split; [exact Ha|]. split; [exact Hb|].
  split; [reflexivity|]. split; [reflexivity|]. split.
  - exists Mon. split; compute_done.
  - apply (conflict_iff_common_day_and_instant _ _ Ha Hb). reflexivity.
Defined.

Lemma enumerate_deterministic_witness :
  sections <$> [Samples.CourseA; Samples.CourseB']
  = sections <$> [ {| subject := "CPSC"; course_code := "1050H";
                      sections := [Samples.S1; Samples.S2] |};
                   Samples.CourseB' ]
  ∧ Samples.ids (enumerate Samples.no_component [Samples.CourseA; Samples.CourseB'])
    = [(["S1"; "S3"], true); (["S1"; "S4"], false);
       (["S2"; "S3"], true); (["S2"; "S4"], false)]
  ∧ enumerate Samples.no_component [Samples.CourseA; Samples.CourseB']
    = enumerate Samples.no_component
        [ {| subject := "CPSC"; course_code := "1050H";
             sections := [Samples.S1; Samples.S2] |};
          Samples.CourseB' ].
Proof.
  split; [reflexivity|]. split; [reflexivity|].
  apply (enumerate_deterministic Samples.no_component
           [Samples.CourseA; Samples.CourseB']
           [ {| subject := "CPSC"; course_code := "1050H";
                sections := [Samples.S1; Samples.S2] |};
             Samples.CourseB' ] eq_refl).
Defined.

Lemma sample_keys_unique : unique_keys [Samples.CourseA; Samples.CourseB'].
Proof. compute_done. Qed.

Lemma remove_then_add_witness :
  unique_keys [Samples.CourseA; Samples.CourseB']
  ∧ Samples.CourseB' ∈ [Samples.CourseA; Samples.CourseB']
  ∧ enumerate Samples.no_component
      (add Samples.CourseB'
         (remove (key Samples.CourseB') [Samples.CourseA; Samples.CourseB']))
    = enumerate Samples.no_component [Samples.CourseA; Samples.CourseB'].
Proof.
  assert (Hin : Samples.CourseB' ∈ [Samples.CourseA; Samples.CourseB']).
  { apply list_elem_of_lookup. by exists 1. }
  split; [exact sample_keys_unique|]. split; [exact Hin|].
  destruct (remove_then_add Samples.no_component _ _ sample_keys_unique Hin)
    as (_ & _ & _ & _ & Hlast).
  apply Hlast. reflexivity.
Defined.

(** Removing the first of two courses and adding it again: the second
    combination was S1 with S4 and is now S2 with S3. The enumeration has
    changed, also when the order of the sections within a combination is
    disregarded. *)
Lemma remove_then_add_changes_order :
  unique_keys [Samples.CourseA; Samples.CourseB']
  ∧ Samples.CourseA ∈ [Samples.CourseA; Samples.CourseB']
  ∧ Samples.ids (enumerate Samples.no_component
           (add Samples.CourseA
              (remove (key Samples.CourseA)
                 [Samples.CourseA; Samples.CourseB'])))
    = [(["S3"; "S1"], true); (["S3"; "S2"], true);
       (["S4"; "S1"], false); (["S4"; "S2"], false)]
  ∧ ¬ Forall2 (λ x y : Combination * bool, x.1 ≡ₚ y.1)
        (enumerate Samples.no_component
           (add Samples.CourseA
              (remove (key Samples.CourseA)
                 [Samples.CourseA; Samples.CourseB'])))
        (enumerate Samples.no_component [Samples.CourseA; Samples.CourseB'])
  ∧ enumerate Samples.no_component
      (add Samples.CourseA
         (remove (key Samples.CourseA) [Samples.CourseA; Samples.CourseB']))
    ≠ enumerate Samples.no_component [Samples.CourseA; Samples.CourseB'].
Proof.
  assert (Hnot : ¬ Forall2 (λ x y : Combination * bool, x.1 ≡ₚ y.1)
        (enumerate Samples.no_component
           (add Samples.CourseA
              (remove (key Samples.CourseA)
                 [Samples.CourseA; Samples.CourseB'])))
        (enumerate Samples.no_component [Samples.CourseA; Samples.CourseB'])).
  { intros Hall.
    assert (Hsecond : [Samples.S3; Samples.S2] ≡ₚ [Samples.S1; Samples.S4]).
    { apply (Forall2_lookup_lr _ _ _ 1 ([Samples.S3; Samples.S2], true)
               ([Samples.S1; Samples.S4], false) Hall); reflexivity. }
    assert (Hin : Samples.S1 ∈ [Samples.S3; Samples.S2]).
    { rewrite Hsecond. by left. }
    apply elem_of_cons in Hin as [Heq|Hin].
    - apply (f_equal id) in Heq. discriminate Heq.
    - apply list_elem_of_singleton in Hin.
      apply (f_equal id) in Hin. discriminate Hin. }
  split; [exact sample_keys_unique|]. split; [by left|].
  split; [reflexivity|]. split; [exact Hnot|].
  intros Heq. apply Hnot. rewrite Heq.
  apply Forall_Forall2_diag, Forall_forall. by intros.
Qed.

End TimetableFacts.

(** ** The section browser: form handlers, pagination, requests *)

Module SectionBrowserFacts.
Import JS SectionSearch SectionBrowser SectionSearchFacts.

(** *** Decimal text *)

Lemma all_digits_string_of_uint (d : Decimal.uint) :
  all_digits (NilEmpty.string_of_uint d) = true.
Proof. induction d; simpl; auto. Qed.

Lemma decimal_unsigned (n : Z) :
  (0 ≤ n)%Z →
  ∃ d, decimal n = NilEmpty.string_of_uint d ∧ Z.of_uint d = n.
Proof.
  intros Hn. unfold decimal. destruct n as [|p|p]; [| |lia].
  - by exists (Decimal.D0 Decimal.Nil).
  - exists (Pos.to_uint p). split.
    + simpl. unfold NilZero.string_of_uint.
      destruct (Pos.to_uint p) eqn:Hp; try done.
      by apply DecimalPos.Unsigned.to_uint_nonnil in Hp.
    + unfold Z.of_uint. by rewrite DecimalPos.Unsigned.of_to.
Qed.

Lemma all_digits_decimal (n : Z) : (0 ≤ n)%Z → all_digits (decimal n) = true.
Proof.
  intros Hn. destruct (decimal_unsigned n Hn) as (d & -> & _).
  apply all_digits_string_of_uint.
Qed.

(** Reading a page number back from its text. *)
Lemma Number_decimal (n : Z) :
  (0 ≤ n)%Z → Number (Str (decimal n)) = Some (Finite n).
Proof.
  intros Hn. destruct (decimal_unsigned n Hn) as (d & -> & <-).
  simpl. by rewrite NilEmpty.usu.
Qed.

(** *** Splitting at the dash *)

Lemma is_digit_not_dash (c : Ascii.ascii) :
  is_digit c = true → Ascii.eqb c "-" = false.
Proof.
  intros Hd. destruct (Ascii.eqb_spec c "-") as [->|]; [|done].
  by vm_compute in Hd.
Qed.

Lemma split_digits (s : string) :
  all_digits s = true → split "-" s = [s].
Proof.
  induction s as [|c s IH]; simpl; [done|].
  intros [Hc Hs]%andb_true_iff.
  by rewrite (is_digit_not_dash c Hc), (IH Hs).
Qed.

Lemma split_digits_dash (a b : string) :
  all_digits a = true → split "-" (a +:+ "-" +:+ b) = a :: split "-" b.
Proof.
  induction a as [|c a IH]; simpl; [done|].
  intros [Hc Ha]%andb_true_iff.
  by rewrite (is_digit_not_dash c Hc), (IH Ha).
Qed.

(** *** What one change leaves in the state *)

Lemma handleInputChange_lookup (key k : Key) (value : Value) (st : SearchParams) :
  lookup_key k (handleInputChange key value st)
  = if decide (k = key) then Some value
    else if decide (k = k_page) then Some (Num 1)
    else lookup_key k st.
Proof.
  unfold handleInputChange, handleInputChange_updates, apply_updates.
  destruct (decide (key = k_page)) as [->|Hkey]; simpl.
  - destruct (decide (k = k_page)) as [->|Hk].
    + apply lookup_set_key_eq.
    + by rewrite lookup_set_key_ne.
  - destruct (decide (k = key)) as [->|Hk].
    + rewrite lookup_set_key_ne by done. apply lookup_set_key_eq.
    + destruct (decide (k = k_page)) as [->|Hp].
      * apply lookup_set_key_eq.
      * by rewrite !lookup_set_key_ne.
Qed.

Lemma lookup_key_elem (st : SearchParams) (k : Key) (v : Value) :
  well_formed st → lookup_key k st = Some v ↔ (k, v) ∈ st.
Proof.
  unfold well_formed. induction st as [|[k' v'] st IH]; simpl; intros Hnd.
  - split; [done|]. intros Hin. by apply elem_of_nil in Hin.
  - apply NoDup_cons in Hnd as [Hfresh Hnd]. rewrite elem_of_cons.
    destruct (decide (k' = k)) as [->|Hne].
    + split.
      * intros [= ->]. by left.
      * intros [[= ->]|Hin]; [done|]. destruct Hfresh.
        apply list_elem_of_fmap. by exists (k, v).
    + rewrite IH by done. split; [by right|].
      intros [[= <- _]|Hin]; [done|done].
Qed.

(** The query of a state, by the properties read from it. *)
Lemma queryParams_by_lookup (st : SearchParams) :
  well_formed st →
  ∃ q, queryParams st = Some q ∧
    ∀ name s, (name, s) ∈ q ↔
      ∃ k v, lookup_key k st = Some v ∧ name = key_name k
             ∧ sent v = true ∧ toString v = Some s.
Proof.
  intros Hwf. destruct (forEach_entry_filter st []) as (q & Hq & Hmem).
  exists q. split; [done|]. intros name s. rewrite Hmem.
  split; intros (k & v & Hin & Hrest); exists k, v;
    (split; [by apply (lookup_key_elem st k v Hwf)|done]).
Qed.

(** X1. After a change of a filter, the query differs from the one before
    in that filter and in the page only: the filter is sent with its new
    value if that is sendable, the page is sent as 1, and every other
    parameter is sent exactly as before. *)
Theorem query_after_change (key : Key) (value : Value) (st : SearchParams) :
  well_formed st → key ≠ k_page →
  ∃ q q', queryParams st = Some q
    ∧ queryParams (handleInputChange key value st) = Some q'
    ∧ ∀ name s, (name, s) ∈ q' ↔
        (name = key_name key ∧ sent value = true ∧ toString value = Some s)
        ∨ (name = "page" ∧ s = "1")
        ∨ (name ≠ key_name key ∧ name ≠ "page" ∧ (name, s) ∈ q).
Proof.
  intros Hwf Hkey.
  destruct (queryParams_by_lookup st Hwf) as (q & Hq & Hmem).
  destruct (queryParams_by_lookup (handleInputChange key value st))
    as (q' & Hq' & Hmem'); [by apply handleInputChange_well_formed|].
  exists q, q'. split; [done|]. split; [done|].
  intros name s. rewrite Hmem'. split.
  - intros (k & v & Hlook & -> & Hsent & Hstr).
    rewrite handleInputChange_lookup in Hlook.
    destruct (decide (k = key)) as [->|Hk]; [left; by simplify_eq|].
    destruct (decide (k = k_page)) as [->|Hp].
    + right; left. simplify_eq. by simplify_eq/=.
    + right; right. split; [by intros ?%key_name_inj|].
      split; [by intros ?%(key_name_inj k k_page)|].
      apply Hmem. by exists k, v.
  - intros [(-> & Hsent & Hstr)|[[-> ->]|(Hname & Hpage & Hin)]].
    + exists key, value. rewrite handleInputChange_lookup.
      by rewrite decide_True.
    + exists k_page, (Num 1). rewrite handleInputChange_lookup.
      rewrite decide_False by done. by rewrite decide_True.
    + apply Hmem in Hin as (k & v & Hlook & -> & Hsent & Hstr).
      exists k, v. rewrite handleInputChange_lookup.
      rewrite decide_False by (by intros ->).
      by rewrite decide_False by (by intros ->).
Qed.

(** X2. Choosing a semester in the select stores the year and the term of
    that semester, as decimal text that reads back as the two numbers, and
    resets the page to 1; every other parameter is left as it was. The
    year and the term are integers from 0 to [Number.MAX_SAFE_INTEGER],
    which the option value spells out digit by digit. *)
Theorem semester_option_round_trip (sem : Semester) (st : SearchParams) :
  (0 ≤ sem_year sem ≤ MAX_SAFE_INTEGER)%Z →
  (0 ≤ sem_term sem ≤ MAX_SAFE_INTEGER)%Z →
  semester_onChange (opt_value (semesterOption sem)) st
  = handleInputChange k_term (Str (decimal (sem_term sem)))
      (handleInputChange k_year (Str (decimal (sem_year sem))) st)
  ∧ lookup_key k_year (semester_onChange (opt_value (semesterOption sem)) st)
    = Some (Str (decimal (sem_year sem)))
  ∧ lookup_key k_term (semester_onChange (opt_value (semesterOption sem)) st)
    = Some (Str (decimal (sem_term sem)))
  ∧ lookup_key k_page (semester_onChange (opt_value (semesterOption sem)) st)
    = Some (Num 1)
  ∧ (∀ k, k ≠ k_year → k ≠ k_term → k ≠ k_page →
       lookup_key k (semester_onChange (opt_value (semesterOption sem)) st)
       = lookup_key k st)
  ∧ Number (Str (decimal (sem_year sem))) = Some (Finite (sem_year sem))
  ∧ Number (Str (decimal (sem_term sem))) = Some (Finite (sem_term sem)).
Proof.
  intros [Hyear _] [Hterm _].
  assert (Hsplit : split "-" (opt_value (semesterOption sem))
                   = [decimal (sem_year sem); decimal (sem_term sem)]).
  { simpl. rewrite split_digits_dash by by apply all_digits_decimal.
    by rewrite split_digits by by apply all_digits_decimal. }
  assert (Heq : semester_onChange (opt_value (semesterOption sem)) st
    = handleInputChange k_term (Str (decimal (sem_term sem)))
        (handleInputChange k_year (Str (decimal (sem_year sem))) st)).
  { unfold semester_onChange. by rewrite Hsplit. }
  rewrite Heq. split; [done|].
  rewrite !handleInputChange_lookup. repeat split; try done.
  - intros k Hy Ht Hp. rewrite !handleInputChange_lookup.
    by rewrite !decide_False.
  - by apply Number_decimal.
  - by apply Number_decimal.
Qed.

(** X3. Choosing "All Semesters" (the option with the empty value) stores
    an empty year and an undefined term, so the next query carries neither
    a year nor a term. *)
Theorem all_semesters_clears_year_and_term (st : SearchParams) :
  well_formed st →
  lookup_key k_year (semester_onChange "" st) = Some (Str "")
  ∧ lookup_key k_term (semester_onChange "" st) = Some Undefined
  ∧ ∃ q, queryParams (semester_onChange "" st) = Some q
      ∧ ("year" ∉ q.*1) ∧ ("term" ∉ q.*1).
Proof.
  intros Hwf. unfold semester_onChange. simpl.
  rewrite !handleInputChange_lookup. split; [done|]. split; [done|].
  destruct (queryParams_by_lookup
              (handleInputChange k_term Undefined
                 (handleInputChange k_year (Str "") st)))
    as (q & Hq & Hmem); [by do 2 apply handleInputChange_well_formed|].
  exists q. split; [done|].
  split; intros Hin; apply list_elem_of_fmap in Hin as [[name s] [Hname Hin]];
    simpl in Hname; subst name;
    apply Hmem in Hin as (k & v & Hlook & Hname & Hsent & _).
  - apply (key_name_inj k_year k) in Hname as <-.
    rewrite !handleInputChange_lookup in Hlook. by simplify_eq/=.
  - apply (key_name_inj k_term k) in Hname as <-.
    rewrite !handleInputChange_lookup in Hlook. by simplify_eq/=.
Qed.

Lemma all_digits_remove_non_digits (s : string) :
  all_digits (remove_non_digits s) = true.
Proof.
  induction s as [|c s IH]; [done|]. simpl.
  destruct (is_digit c) eqn:Hc; [|done]. simpl. by rewrite Hc.
Qed.

Lemma remove_non_digits_digits (s : string) :
  all_digits s = true → remove_non_digits s = s.
Proof.
  induction s as [|c s IH]; [done|]. simpl.
  intros [Hc Hs]%andb_true_iff. by rewrite Hc, IH.
Qed.

(** X4. Whatever is typed or pasted into the course code input, the course
    code stored holds decimal digits only: the digits of the input, in
    order; an input of digits is stored as it is, and an input without any
    digit clears the filter from the query. *)
Theorem course_code_digits_only (value : string) (st : SearchParams) :
  lookup_key k_course_code (course_code_onChange value st)
  = Some (Str (remove_non_digits value))
  ∧ all_digits (remove_non_digits value) = true
  ∧ remove_non_digits (remove_non_digits value) = remove_non_digits value
  ∧ (all_digits value = true → remove_non_digits value = value)
  ∧ (remove_non_digits value = "" → well_formed st →
       ∃ q, queryParams (course_code_onChange value st) = Some q
            ∧ "course_code" ∉ q.*1).
Proof.
  unfold course_code_onChange. rewrite handleInputChange_lookup.
  split; [done|]. split; [apply all_digits_remove_non_digits|].
  split; [apply remove_non_digits_digits, all_digits_remove_non_digits|].
  split; [apply remove_non_digits_digits|].
  intros Hempty Hwf. rewrite Hempty.
  destruct (queryParams_by_lookup
              (handleInputChange k_course_code (Str "") st))
    as (q & Hq & Hmem); [by apply handleInputChange_well_formed|].
  exists q. split; [done|]. intros Hin.
  apply list_elem_of_fmap in Hin as [[name s] [Hname Hin]].
  simpl in Hname. subst name.
  apply Hmem in Hin as (k & v & Hlook & Hname & Hsent & _).
  apply (key_name_inj k_course_code k) in Hname as <-.
  rewrite handleInputChange_lookup in Hlook. by simplify_eq/=.
Qed.

(** X5. The Online checkbox changes the [online] parameter and nothing
    else: unlike every other filter it does not reset the page, so the
    current page stays what it was. *)
Theorem online_keeps_page (checked : bool) (st : SearchParams) :
  lookup_key k_online (online_onChange checked st) = Some (Bool checked)
  ∧ (∀ k, k ≠ k_online →
       lookup_key k (online_onChange checked st) = lookup_key k st)
  ∧ currentPage (online_onChange checked st) = currentPage st
  ∧ (well_formed st → well_formed (online_onChange checked st)).
Proof.
  unfold online_onChange. split; [apply lookup_set_key_eq|].
  split; [intros k Hk; by apply lookup_set_key_ne|].
  split; [|apply set_key_well_formed].
  unfold currentPage, read. by rewrite lookup_set_key_ne.
Qed.

(** X6. A click on the button of page [n] (from 1 on) makes [n] the
    current page, so that this button is the one drawn as current, and
    leaves every filter as it was; a click on an ellipsis does nothing. *)
Theorem page_click_round_trip (n : Z) (st : SearchParams) :
  (1 ≤ n)%Z →
  currentPage (page_onClick (PageNumber n) st) = Some n
  ∧ (∀ m, highlighted (PageNumber n) m = true ↔ m = n)
  ∧ (∀ k, k ≠ k_page →
       lookup_key k (page_onClick (PageNumber n) st) = lookup_key k st)
  ∧ page_onClick Ellipsis st = st.
Proof.
  intros Hn. unfold page_onClick. split; [|split; [|split; [|done]]].
  - unfold currentPage, read. rewrite handleInputChange_lookup.
    rewrite decide_True by done. cbn [default]. unfold Datatypes.id.
    rewrite Number_decimal by lia. destruct n; [lia|done|lia].
  - intros m. unfold highlighted. rewrite bool_decide_eq_true.
    split; [by intros [= ->]|by intros ->].
  - intros k Hk. rewrite handleInputChange_lookup.
    rewrite decide_False by done. by rewrite decide_False.
Qed.

(** *** Pagination *)

Lemma filter_all {A} (P : A → Prop) `{∀ x, Decision (P x)} (l : list A) :
  Forall P l → filter P l = l.
Proof.
  induction 1 as [|x l Hx _ IH]; [done|].
  by rewrite filter_cons_True, IH.
Qed.

(** The guard against duplicates inside the loop never removes a page: the
    loop runs from 2 at least to the page before the last at most. *)
Lemma pages_unfiltered (totalPages currentPage : Z) :
  pages totalPages currentPage
  = [PageNumber 1]
    ++ (if decide (currentPage > 4)%Z then [Ellipsis] else [])
    ++ (PageNumber <$> seqZ (Z.max 2 (currentPage - 2))
                         (Z.min (totalPages - 1) (currentPage + 2)
                          - Z.max 2 (currentPage - 2) + 1))
    ++ (if decide (currentPage < totalPages - 3)%Z then [Ellipsis] else [])
    ++ (if decide (totalPages > 1)%Z then [PageNumber totalPages] else []).
Proof.
  unfold pages. cbv zeta. do 4 f_equal.
  apply filter_all, Forall_seqZ. lia.
Qed.

Lemma elem_of_pages (totalPages currentPage n : Z) :
  PageNumber n ∈ pages totalPages currentPage
  ↔ n = 1%Z
    ∨ (Z.max 2 (currentPage - 2) ≤ n
       ≤ Z.min (totalPages - 1) (currentPage + 2))%Z
    ∨ (totalPages > 1 ∧ n = totalPages)%Z.
Proof.
  rewrite pages_unfiltered, !elem_of_app.
  assert (Hfirst : PageNumber n ∈ [PageNumber 1] ↔ n = 1%Z).
  { rewrite list_elem_of_singleton. split; [by intros [= ->]|by intros ->]. }
  assert (He1 : PageNumber n
      ∈ (if decide (currentPage > 4)%Z then [Ellipsis] else []) ↔ False).
  { destruct (decide (currentPage > 4)%Z);
      [rewrite list_elem_of_singleton|rewrite elem_of_nil]; done. }
  assert (He2 : PageNumber n
      ∈ (if decide (currentPage < totalPages - 3)%Z then [Ellipsis] else [])
      ↔ False).
  { destruct (decide (currentPage < totalPages - 3)%Z);
      [rewrite list_elem_of_singleton|rewrite elem_of_nil]; done. }
  assert (Hmid : PageNumber n
      ∈ (PageNumber <$> seqZ (Z.max 2 (currentPage - 2))
           (Z.min (totalPages - 1) (currentPage + 2)
            - Z.max 2 (currentPage - 2) + 1))
    ↔ (Z.max 2 (currentPage - 2) ≤ n
       ≤ Z.min (totalPages - 1) (currentPage + 2))%Z).
  { rewrite list_elem_of_fmap. split.
    - intros (y & [= <-] & Hy). apply elem_of_seqZ in Hy. lia.
    - intros Hn. exists n. split; [done|]. apply elem_of_seqZ. lia. }
  assert (Hlast : PageNumber n
      ∈ (if decide (totalPages > 1)%Z then [PageNumber totalPages] else [])
    ↔ (totalPages > 1 ∧ n = totalPages)%Z).
  { destruct (decide (totalPages > 1)%Z);
      [rewrite list_elem_of_singleton|rewrite elem_of_nil].
    - split; [by intros [= ->]|by intros [_ ->]].
    - tauto. }
  rewrite Hfirst, He1, He2, Hmid, Hlast. tauto.
Qed.

Lemma page_numbers_app (l1 l2 : list PageItem) :
  page_numbers (l1 ++ l2) = page_numbers l1 ++ page_numbers l2.
Proof. apply omap_app. Qed.

Lemma page_numbers_fmap (l : list Z) : page_numbers (PageNumber <$> l) = l.
Proof. induction l as [|n l IH]; [done|]. simpl. by f_equal. Qed.

Lemma StronglySorted_seqZ (m n : Z) : StronglySorted Z.lt (seqZ m n).
Proof.
  destruct (decide (n ≤ 0)%Z) as [Hn|Hn].
  { rewrite seqZ_nil by done. constructor. }
  replace n with (Z.of_nat (Z.to_nat n)) by lia.
  generalize (Z.to_nat n). clear. intros k. revert m.
  induction k as [|k IH]; intros m.
  - rewrite seqZ_nil by done. constructor.
  - rewrite seqZ_cons by lia. constructor.
    + replace (Z.pred (Z.of_nat (S k))) with (Z.of_nat k) by lia. apply IH.
    + apply Forall_seqZ. lia.
Qed.

(** X7. Whatever the total and the current page are, the pagination starts
    with page 1, offers no page below 1 or above the last page, lists its
    page numbers in strictly increasing order (so none twice), and has nine
    buttons at most. *)
Theorem pages_bounds (totalPages currentPage : Z) :
  head (pages totalPages currentPage) = Some (PageNumber 1)
  ∧ (∀ n, PageNumber n ∈ pages totalPages currentPage →
       (1 ≤ n ≤ Z.max 1 totalPages)%Z)
  ∧ StronglySorted Z.lt (page_numbers (pages totalPages currentPage))
  ∧ (length (pages totalPages currentPage) ≤ 9)%nat.
Proof.
  split; [done|]. split; [|split].
  - intros n Hn. apply elem_of_pages in Hn. lia.
  - rewrite pages_unfiltered, !page_numbers_app, page_numbers_fmap.
    assert (He1 : page_numbers
      (if decide (currentPage > 4)%Z then [Ellipsis] else []) = []).
    { by destruct (decide (currentPage > 4)%Z). }
    assert (He2 : page_numbers
      (if decide (currentPage < totalPages - 3)%Z then [Ellipsis] else []) = []).
    { by destruct (decide (currentPage < totalPages - 3)%Z). }
    rewrite He1, He2. clear He1 He2. simpl. constructor.
    + apply StronglySorted_app. split; [|split].
      * intros x1 x2 H1 H2. apply elem_of_seqZ in H1.
        destruct (decide (totalPages > 1)%Z); [|by apply elem_of_nil in H2].
        apply list_elem_of_singleton in H2. lia.
      * apply StronglySorted_seqZ.
      * destruct (decide (totalPages > 1)%Z); repeat constructor.
    + apply Forall_app. split.
      * apply Forall_seqZ. lia.
      * destruct (decide (totalPages > 1)%Z); repeat constructor. lia.
  - rewrite pages_unfiltered, !length_app, length_fmap, length_seqZ.
    repeat case_decide; simpl; lia.
Qed.

(** X8. When the current page is one of the pages, the page numbers
    offered are exactly the first page, the last page, and the pages at
    most two away from the current one; the current page is among them. *)
Theorem pages_in_range (totalPages currentPage : Z) :
  (1 ≤ currentPage ≤ totalPages)%Z →
  (∀ n, PageNumber n ∈ pages totalPages currentPage ↔
     (1 ≤ n ≤ totalPages)%Z
     ∧ (n = 1 ∨ n = totalPages
        ∨ currentPage - 2 ≤ n ≤ currentPage + 2)%Z)
  ∧ PageNumber currentPage ∈ pages totalPages currentPage.
Proof.
  intros Hcur. split.
  - intros n. rewrite elem_of_pages. lia.
  - apply elem_of_pages. lia.
Qed.

Lemma seqZ_to_nat (m n : Z) : seqZ m n = seqZ m (Z.of_nat (Z.to_nat n)).
Proof. unfold seqZ. by rewrite Nat2Z.id. Qed.

Lemma spaced_numbers (prev : Z) (k : nat) (rest : list PageItem) :
  spaced prev ((PageNumber <$> seqZ (prev + 1) (Z.of_nat k)) ++ rest)
  ↔ spaced (prev + Z.of_nat k) rest.
Proof.
  revert prev. induction k as [|k IH]; intros prev.
  - rewrite seqZ_nil by done. simpl. by rewrite Z.add_0_r.
  - rewrite seqZ_cons by lia. simpl.
    replace (Z.pred (Z.of_nat (S k))) with (Z.of_nat k) by lia.
    replace (Z.succ (prev + 1)) with (prev + 1 + 1)%Z by lia.
    rewrite IH.
    replace (prev + 1 + Z.of_nat k)%Z with (prev + Z.of_nat (S k))%Z by lia.
    tauto.
Qed.

(** X9. When the current page is one of the pages, the buttons leave no
    page out unmarked: each number follows the number before it directly,
    unless an ellipsis stands between them, and then at least one page is
    left out there. *)
Theorem pages_gaps_marked (totalPages currentPage : Z) :
  (1 ≤ currentPage ≤ totalPages)%Z →
  ∃ rest, pages totalPages currentPage = PageNumber 1 :: rest
          ∧ spaced 1 rest.
Proof.
  intros Hcur. rewrite pages_unfiltered. eexists. split; [reflexivity|].
  set (start := Z.max 2 (currentPage - 2)).
  set (end_ := Z.min (totalPages - 1) (currentPage + 2)).
  assert (Htail : ∀ p,
    (currentPage < totalPages - 3 → p + 1 < totalPages)%Z →
    (¬ (currentPage < totalPages - 3) → totalPages > 1 → totalPages = p + 1)%Z →
    spaced p
      ((if decide (currentPage < totalPages - 3)%Z then [Ellipsis] else [])
       ++ (if decide (totalPages > 1)%Z then [PageNumber totalPages] else []))).
  { intros p Hdots Hnext. repeat case_decide; simpl; try lia; auto. }
  destruct (decide (currentPage > 4)%Z) as [Hfar|Hnear].
  - assert (Hlen : (0 < end_ - start + 1)%Z) by lia.
    rewrite (seqZ_cons start) by done. simpl.
    split; [lia|].
    rewrite (seqZ_to_nat (Z.succ start)).
    replace (Z.succ start) with (start + 1)%Z by lia.
    apply spaced_numbers, Htail; lia.
  - simpl. rewrite (seqZ_to_nat start).
    replace start with (1 + 1)%Z at 1 by lia.
    apply spaced_numbers, Htail; lia.
Qed.

(** When the current page lies past the last page (the Online checkbox
    keeps the page while the results shrink), an ellipsis can stand between
    two neighbouring pages. *)
Example pages_past_the_end :
  pages 2 5 = [PageNumber 1; Ellipsis; PageNumber 2].
Proof. reflexivity. Qed.

(** *** The results counter *)

(** X10. For a page from 1 on, a positive page size and a total that is
    not negative, the counter never counts past the total nor more rows
    than the page size; it shows a full page whenever the page fits in the
    total, and then the next page starts right after; its range is
    non-empty exactly when the page starts within the total, so that for no
    result at all it reads from 1 to 0. *)
Theorem showing_window (page sections_per_page total_sections : Z) :
  (1 ≤ page)%Z → (0 < sections_per_page)%Z → (0 ≤ total_sections)%Z →
  (showing_last page sections_per_page total_sections ≤ total_sections)%Z
  ∧ (showing_last page sections_per_page total_sections
     - showing_first page sections_per_page + 1 ≤ sections_per_page)%Z
  ∧ ((page * sections_per_page ≤ total_sections)%Z →
       (showing_last page sections_per_page total_sections
        - showing_first page sections_per_page + 1 = sections_per_page)%Z
       ∧ showing_first (page + 1) sections_per_page
         = (showing_last page sections_per_page total_sections + 1)%Z)
  ∧ ((showing_first page sections_per_page
      ≤ showing_last page sections_per_page total_sections)%Z
     ↔ ((page - 1) * sections_per_page < total_sections)%Z)
  ∧ (total_sections = 0%Z →
       showing_first 1 sections_per_page = 1%Z
       ∧ showing_last 1 sections_per_page total_sections = 0%Z).
Proof.
  intros Hpage Hper Htotal. unfold showing_first, showing_last.
  repeat split; try nia.
Qed.

(** *** Requests *)

(** X11. The two lists of the form are loaded together or not at all: when
    either request fails (the fetch rejects or the body does not parse) the
    state is left as it was, hence no semester to choose from at the start;
    when both succeed the semesters and the subjects are both set and the
    select offers one option per semester, in order. *)
Theorem fetchInitialData_all_or_nothing
    semestersRes subjectsRes (race : Composer.Race) (st : State) :
  (Composer.failed semestersRes ∨ Composer.failed subjectsRes →
     fetchInitialData semestersRes subjectsRes race st = st
     ∧ semesterOptions
         (semesters (fetchInitialData semestersRes subjectsRes race
                       initialState)) = [])
  ∧ (∀ semestersData subjectsData,
       semestersRes = Composer.Fulfilled (Composer.Fulfilled semestersData) →
       subjectsRes = Composer.Fulfilled (Composer.Fulfilled subjectsData) →
       semesters (fetchInitialData semestersRes subjectsRes race st)
       = Some semestersData
       ∧ subjects (fetchInitialData semestersRes subjectsRes race st)
         = subj_subjects subjectsData
       ∧ semesterOptions
           (semesters (fetchInitialData semestersRes subjectsRes race st))
         = semesterOption <$> sem_semesters semestersData
       ∧ sectionsData (fetchInitialData semestersRes subjectsRes race st)
         = sectionsData st
       ∧ loading (fetchInitialData semestersRes subjectsRes race st)
         = loading st).
Proof.
  split.
  - intros Hfailed. unfold fetchInitialData.
    destruct semestersRes as [[a|m1]|m1], subjectsRes as [[b|m2]|m2], race;
      simpl in *; tauto.
  - intros a b -> ->. unfold fetchInitialData. by destruct race.
Qed.

(** X12. A search whose request fails or whose body does not parse keeps
    the sections shown and the request information, and leaves the loading
    flag set; a search that succeeds shows the new sections, records the
    time and whether the cache header says HIT, and clears the flag. The
    semesters and subjects are never touched. *)
Theorem search_outcome (params : SearchParams)
    (response : Composer.Settled SearchResponse) (elapsed : Z) (st : State) :
  ((∃ m, response = Composer.Rejected m)
   ∨ (∃ r m, response = Composer.Fulfilled r ∧ json r = Composer.Rejected m) →
     loading (search params response elapsed st) = true
     ∧ sectionsData (search params response elapsed st) = sectionsData st
     ∧ requestInfo (search params response elapsed st) = requestInfo st)
  ∧ (∀ r data,
       response = Composer.Fulfilled r → json r = Composer.Fulfilled data →
       loading (search params response elapsed st) = false
       ∧ sectionsData (search params response elapsed st) = Some data
       ∧ requestInfo (search params response elapsed st)
         = {| time := Some elapsed;
              cached := Some (bool_decide (x_fastapi_cache r = Some "HIT")) |})
  ∧ semesters (search params response elapsed st) = semesters st
  ∧ subjects (search params response elapsed st) = subjects st.
Proof.
  unfold search.
  destruct (forEach_entry_filter params []) as (q & Hq & _).
  unfold queryParams. rewrite Hq.
  split; [|split; [|split]].
  - intros [[m ->]|(r & m & -> & Hr)]; [done|]. by rewrite Hr.
  - intros r data -> Hr. by rewrite Hr.
  - destruct response as [r|m]; [|done]. by destruct (json r).
  - destruct response as [r|m]; [|done]. by destruct (json r).
Qed.

(** *** The properties at the sample data *)

Lemma query_after_change_witness :
  well_formed Samples.search_state ∧ k_attr_ar ≠ k_page
  ∧ ∃ q', queryParams
            (handleInputChange k_attr_ar (Bool true) Samples.search_state)
          = Some q'
      ∧ ("attr_ar", "true") ∈ q' ∧ ("page", "1") ∈ q'.
Proof.
  assert (Hwf : well_formed Samples.search_state) by compute_done.
  assert (Hne : k_attr_ar ≠ k_page) by discriminate.
  split; [exact Hwf|]. split; [exact Hne|].
  destruct (query_after_change k_attr_ar (Bool true) Samples.search_state
              Hwf Hne) as (q & q' & _ & Hq' & Hmem).
  exists q'. split; [exact Hq'|]. split; apply Hmem.
  - left. by repeat split.
  - right; left. by split.
Defined.

Lemma semester_option_round_trip_witness :
  (0 ≤ 2025 ≤ MAX_SAFE_INTEGER)%Z ∧ (0 ≤ 30 ≤ MAX_SAFE_INTEGER)%Z
  ∧ lookup_key k_year
      (semester_onChange "2025-30" Samples.search_state)
    = Some (Str "2025")
  ∧ lookup_key k_term
      (semester_onChange "2025-30" Samples.search_state)
    = Some (Str "30").
Proof.
  assert (Hy : (0 ≤ 2025 ≤ MAX_SAFE_INTEGER)%Z)
    by (unfold MAX_SAFE_INTEGER; lia).
  assert (Ht : (0 ≤ 30 ≤ MAX_SAFE_INTEGER)%Z)
    by (unfold MAX_SAFE_INTEGER; lia).
  split; [exact Hy|]. split; [exact Ht|].
  destruct (semester_option_round_trip
              {| sem_term := 30; sem_year := 2025; sem_id := "2025-30" |}
              Samples.search_state Hy Ht) as (_ & Hyear & Hterm & _).
  split; [exact Hyear|exact Hterm].
Defined.

Lemma all_semesters_clears_year_and_term_witness :
  well_formed (semester_onChange "2025-30" Samples.search_state)
  ∧ ∃ q, queryParams
           (semester_onChange ""
              (semester_onChange "2025-30" Samples.search_state))
         = Some q
      ∧ ("year" ∉ q.*1) ∧ ("term" ∉ q.*1).
Proof.
  assert (Hwf : well_formed
                  (semester_onChange "2025-30" Samples.search_state))
    by compute_done.
  split; [exact Hwf|].
  destruct (all_semesters_clears_year_and_term _ Hwf) as (_ & _ & Hq).
  exact Hq.
Defined.

Lemma page_click_round_trip_witness :
  (1 ≤ 12)%Z
  ∧ currentPage (page_onClick (PageNumber 12) Samples.search_state)
    = Some 12%Z.
Proof.
  assert (Hn : (1 ≤ 12)%Z) by lia.
  split; [exact Hn|].
  apply (page_click_round_trip 12 Samples.search_state Hn).
Defined.

Lemma pages_in_range_witness :
  (1 ≤ 5 ≤ 10)%Z
  ∧ pages 10 5
    = [PageNumber 1; Ellipsis; PageNumber 3; PageNumber 4; PageNumber 5;
       PageNumber 6; PageNumber 7; Ellipsis; PageNumber 10]
  ∧ PageNumber 5 ∈ pages 10 5.
Proof.
  assert (Hcur : (1 ≤ 5 ≤ 10)%Z) by lia.
  split; [exact Hcur|]. split; [reflexivity|].
  apply (pages_in_range 10 5 Hcur).
Defined.

Lemma pages_gaps_marked_witness :
  (1 ≤ 1 ≤ 10)%Z
  ∧ pages 10 1
    = [PageNumber 1; PageNumber 2; PageNumber 3; Ellipsis; PageNumber 10]
  ∧ ∃ rest, pages 10 1 = PageNumber 1 :: rest ∧ spaced 1 rest.
Proof.
  assert (Hcur : (1 ≤ 1 ≤ 10)%Z) by lia.
  split; [exact Hcur|]. split; [reflexivity|].
  apply (pages_gaps_marked 10 1 Hcur).
Defined.

Lemma showing_window_witness :
  (1 ≤ 3)%Z ∧ (0 < 50)%Z ∧ (0 ≤ 120)%Z
  ∧ showing_first 3 50 = 101%Z ∧ showing_last 3 50 120 = 120%Z
  ∧ (showing_last 3 50 120 - showing_first 3 50 + 1 ≤ 50)%Z.
Proof.
  assert (Hp : (1 ≤ 3)%Z) by lia.
  assert (Hs : (0 < 50)%Z) by lia.
  assert (Ht : (0 ≤ 120)%Z) by lia.
  split; [exact Hp|]. split; [exact Hs|]. split; [exact Ht|].
  split; [reflexivity|]. split; [reflexivity|].
  destruct (showing_window 3 50 120 Hp Hs Ht) as (_ & Hrows & _).
  exact Hrows.
Defined.

End SectionBrowserFacts.

(** ** The timetable composer over several fetches *)

Module ComposerRunFacts.
Import Composer ComposerRuns ComposerFacts.

Lemma run_app (pre post : list Fetch) (st : State) :
  run (pre ++ post) st = run post (run pre st).
Proof. apply foldl_app. Qed.

Lemma run_cons (f : Fetch) (fs : list Fetch) (st : State) :
  run (f :: fs) st
  = run fs (fetchData (coursesFetch f) (sectionsFetch f) (race f) st).
Proof. done. Qed.

Lemma fetchData_frame coursesFetch sectionsFetch race (st : State) :
  selectedCourses (fetchData coursesFetch sectionsFetch race st)
  = selectedCourses st
  ∧ currentTimetable (fetchData coursesFetch sectionsFetch race st)
    = currentTimetable st
  ∧ isLoading (fetchData coursesFetch sectionsFetch race st) = false.
Proof.
  unfold fetchData. by destruct (tryBlock coursesFetch sectionsFetch race).
Qed.

Lemma fetchData_success (f : Fetch) (merged : list Course) (st : State) :
  outcome f = Fulfilled merged →
  error (fetchData (coursesFetch f) (sectionsFetch f) (race f) st) = error st
  ∧ courses (fetchData (coursesFetch f) (sectionsFetch f) (race f) st)
    = merged.
Proof. unfold outcome, fetchData. by intros ->. Qed.

Lemma fetchData_failure (f : Fetch) (m : string) (st : State) :
  outcome f = Rejected m →
  error (fetchData (coursesFetch f) (sectionsFetch f) (race f) st)
  = Some ("Failed to fetch data: " +:+ m)
  ∧ courses (fetchData (coursesFetch f) (sectionsFetch f) (race f) st)
    = courses st.
Proof. unfold outcome, fetchData. by intros ->. Qed.

(** Fetches that succeed never clear the error. *)
Lemma run_success_error (fs : list Fetch) (st : State) :
  Forall succeeds fs → error (run fs st) = error st.
Proof.
  revert st. induction fs as [|f fs IH]; intros st Hall; [done|].
  apply Forall_cons in Hall as [[merged Hf] Hall].
  rewrite run_cons, IH by done.
  by apply (fetchData_success f merged).
Qed.

Lemma run_frame (fs : list Fetch) (st : State) :
  selectedCourses (run fs st) = selectedCourses st
  ∧ currentTimetable (run fs st) = currentTimetable st
  ∧ (fs ≠ [] → isLoading (run fs st) = false).
Proof.
  revert st. induction fs as [|f fs IH]; intros st; [done|].
  rewrite run_cons.
  destruct (IH (fetchData (coursesFetch f) (sectionsFetch f) (race f) st))
    as (Hsel & Htt & Hload).
  destruct (fetchData_frame (coursesFetch f) (sectionsFetch f) (race f) st)
    as (Hsel' & Htt' & Hload').
  rewrite Hsel, Htt, Hsel', Htt'. split; [done|]. split; [done|].
  intros _. destruct fs as [|g fs]; [done|]. by apply Hload.
Qed.

(** X13. An error is never cleared: once a fetch has failed, the component
    shows the message of the latest failure, however many fetches succeed
    after it. *)
Theorem error_is_sticky (pre post : list Fetch) (f : Fetch) (m : string)
    (st : State) :
  outcome f = Rejected m → Forall succeeds post →
  error (run (pre ++ f :: post) st) = Some ("Failed to fetch data: " +:+ m)
  ∧ render (run (pre ++ f :: post) st)
    = ErrorView ("Failed to fetch data: " +:+ m).
Proof.
  intros Hf Hpost.
  assert (Herr : error (run (pre ++ f :: post) st)
                 = Some ("Failed to fetch data: " +:+ m)).
  { rewrite run_app, run_cons, run_success_error by done.
    by apply fetchData_failure. }
  split; [done|]. unfold render.
  destruct (run_frame (pre ++ f :: post) st) as (_ & _ & Hload).
  rewrite Hload by by destruct pre.
  by rewrite Herr.
Qed.

(** X14. When no fetch has failed, the component shows the courses of the
    latest fetch; the selected courses and the current timetable are those
    from before the fetches, whatever year and term they were chosen for;
    and the loading view never comes back after the first fetch. *)
Theorem latest_fetch_shown (pre : list Fetch) (f : Fetch)
    (merged : list Course) (st : State) :
  truthy (error st) = false → Forall succeeds pre →
  outcome f = Fulfilled merged →
  render (run (pre ++ [f]) st)
  = MainView merged (selectedCourses st) (currentTimetable st)
  ∧ ∀ fs, fs ≠ [] →
      render (run fs st) ≠ LoadingView
      ∧ selectedCourses (run fs st) = selectedCourses st
      ∧ currentTimetable (run fs st) = currentTimetable st.
Proof.
  intros Herr Hpre Hf. split.
  - destruct (run_frame (pre ++ [f]) st) as (Hsel & Htt & Hload).
    unfold render. rewrite Hload by by destruct pre.
    rewrite Hsel, Htt.
    assert (Hall : Forall succeeds (pre ++ [f])).
    { apply Forall_app. split; [done|]. constructor; [by exists merged|done]. }
    rewrite (run_success_error _ _ Hall), Herr.
    rewrite run_app, run_cons. unfold run at 1. cbn [foldl].
    by destruct (fetchData_success f merged (run pre st) Hf) as [_ ->].
  - intros fs Hfs. destruct (run_frame fs st) as (Hsel & Htt & Hload).
    split; [|done]. unfold render. rewrite Hload by done.
    by destruct (truthy (error (run fs st))).
Qed.

Lemma forEach_course_with_sections (cs : list Course) (sd : SectionsResponse)
    (all : list Section) :
  sections_prop sd = Some all →
  forEach_course cs sd = Fulfilled (with_sections all <$> cs).
Proof.
  intros Hsd. induction cs as [|c cs IH]; [done|].
  simpl. unfold attach at 1. rewrite Hsd. simpl. by rewrite IH.
Qed.

(** X15. The fetch completes without error exactly when both requests are
    fulfilled, both bodies parse, the courses body has a [courses] array,
    and either that array is empty or the sections body has a [sections]
    array; the merged courses are then the fetched courses, each with the
    fetched sections of its subject and course code. *)
Theorem tryBlock_success_iff coursesFetch sectionsFetch race
    (merged : list Course) :
  tryBlock coursesFetch sectionsFetch race = Fulfilled merged
  ↔ ∃ cs sd,
      coursesFetch = Fulfilled (Fulfilled {| courses_prop := Some cs |})
      ∧ sectionsFetch = Fulfilled (Fulfilled sd)
      ∧ ((cs = [] ∧ merged = [])
         ∨ ∃ all, sections_prop sd = Some all
                  ∧ merged = with_sections all <$> cs).
Proof.
  split.
  - intros Htry.
    apply tryBlock_fulfilled in Htry as (cs & sd & -> & -> & Hloop).
    exists cs, sd. split; [done|]. split; [done|].
    destruct (sections_prop sd) as [all|] eqn:Hsd.
    + right. exists all. split; [done|].
      rewrite (forEach_course_with_sections cs sd all Hsd) in Hloop.
      by injection Hloop.
    + left. destruct cs as [|c cs]; [by injection Hloop|].
      simpl in Hloop. unfold attach in Hloop. by rewrite Hsd in Hloop.
  - intros (cs & sd & -> & -> & [[-> ->]|(all & Hsd & ->)]).
    + by destruct race.
    + unfold tryBlock.
      assert (Hloop := forEach_course_with_sections cs sd all Hsd).
      destruct race; simpl; by rewrite Hloop.
Qed.

(** X16. Which error is reported. A rejected fetch comes before anything
    about the bodies, and of two rejected fetches the one that rejected
    first; then the courses body that does not parse, then the sections
    body that does not parse, then a courses body without a [courses]
    array, and last a sections body without a [sections] array, which is an
    error only when there is a course to attach sections to. *)
Theorem tryBlock_error_precedence
    (coursesResponse : Response CoursesResponse)
    (sectionsResponse : Response SectionsResponse)
    (coursesData : CoursesResponse) (sectionsData : SectionsResponse)
    (cs : list Course) (m m' : string) (race : Race) :
  tryBlock (Rejected m) (Fulfilled sectionsResponse) race = Rejected m
  ∧ tryBlock (Fulfilled coursesResponse) (Rejected m) race = Rejected m
  ∧ tryBlock (Rejected m) (Rejected m') CoursesFirst = Rejected m
  ∧ tryBlock (Rejected m) (Rejected m') SectionsFirst = Rejected m'
  ∧ tryBlock (Fulfilled (Rejected m)) (Fulfilled sectionsResponse) race
    = Rejected m
  ∧ tryBlock (Fulfilled (Fulfilled coursesData)) (Fulfilled (Rejected m)) race
    = Rejected m
  ∧ (courses_prop coursesData = None →
       tryBlock (Fulfilled (Fulfilled coursesData))
                (Fulfilled (Fulfilled sectionsData)) race
       = Rejected (TypeError_undefined "forEach"))
  ∧ (courses_prop coursesData = Some cs → sections_prop sectionsData = None →
       tryBlock (Fulfilled (Fulfilled coursesData))
                (Fulfilled (Fulfilled sectionsData)) race
       = if decide (cs = []) then Fulfilled []
         else Rejected (TypeError_undefined "filter")).
Proof.
  unfold tryBlock. repeat split; try by destruct race.
  - intros Hcs. destruct race; simpl; by rewrite Hcs.
  - intros Hcs Hsd. destruct race; simpl; rewrite Hcs; simpl;
      (destruct cs as [|c cs]; [done|]);
      simpl; unfold attach; by rewrite Hsd.
Qed.

(** X17. After a fetch that completes, a fetched section is listed under a
    course exactly when it has the subject and course code of that course:
    sections of courses that were not fetched are dropped, and no section
    is listed under two courses that differ in subject or course code. *)
Theorem merged_sections_partition coursesFetch sectionsFetch race
    (merged : list Course) (sd : SectionsResponse) (all : list Section) :
  tryBlock coursesFetch sectionsFetch race = Fulfilled merged →
  sectionsFetch = Fulfilled (Fulfilled sd) → sections_prop sd = Some all →
  (∀ c s, c ∈ merged →
     s ∈ sections c ↔
       s ∈ all ∧ sec_subject s = subject c
       ∧ sec_course_code s = course_code c)
  ∧ (∀ s, s ∈ all →
       (¬ ∃ c, c ∈ merged ∧ sec_subject s = subject c
               ∧ sec_course_code s = course_code c) →
       ∀ c, c ∈ merged → s ∉ sections c)
  ∧ (∀ c1 c2 s, c1 ∈ merged → c2 ∈ merged →
       s ∈ sections c1 → s ∈ sections c2 →
       subject c1 = subject c2 ∧ course_code c1 = course_code c2).
Proof.
  intros Htry -> Hsd.
  apply tryBlock_fulfilled in Htry as (cs & sd' & -> & [= <-] & Hloop).
  rewrite (forEach_course_with_sections cs sd all Hsd) in Hloop.
  injection Hloop as <-.
  assert (Hmem : ∀ c s, c ∈ with_sections all <$> cs →
    s ∈ sections c ↔
      s ∈ all ∧ sec_subject s = subject c
      ∧ sec_course_code s = course_code c).
  { intros c s Hc. apply list_elem_of_fmap in Hc as (c0 & -> & _).
    simpl. rewrite list_elem_of_filter, belongs_to_spec. tauto. }
  split; [exact Hmem|]. split.
  - intros s Hs Hnone c Hc Hin. apply Hnone. exists c.
    apply (Hmem c s Hc) in Hin. tauto.
  - intros c1 c2 s H1 H2 Hs1 Hs2.
    apply (Hmem c1 s H1) in Hs1 as (_ & <- & <-).
    apply (Hmem c2 s H2) in Hs2 as (_ & <- & <-). done.
Qed.

(** *** The properties at the sample data *)

Lemma error_is_sticky_witness :
  outcome {| coursesFetch := Samples.courses_ok;
             sectionsFetch := Samples.sections_malformed;
             race := CoursesFirst |}
  = Rejected "Unexpected token < in JSON at position 0"
  ∧ Forall succeeds [ {| coursesFetch := Samples.courses_ok;
                         sectionsFetch := Samples.sections_ok;
                         race := CoursesFirst |} ]
  ∧ render
      (run [ {| coursesFetch := Samples.courses_ok;
                sectionsFetch := Samples.sections_malformed;
                race := CoursesFirst |};
             {| coursesFetch := Samples.courses_ok;
                sectionsFetch := Samples.sections_ok;
                race := CoursesFirst |} ] initialState)
    = ErrorView
        "Failed to fetch data: Unexpected token < in JSON at position 0".
Proof.
  assert (Hf : outcome {| coursesFetch := Samples.courses_ok;
                          sectionsFetch := Samples.sections_malformed;
                          race := CoursesFirst |}
               = Rejected "Unexpected token < in JSON at position 0")
    by reflexivity.
  assert (Hpost : Forall succeeds
                    [ {| coursesFetch := Samples.courses_ok;
                         sectionsFetch := Samples.sections_ok;
                         race := CoursesFirst |} ]).
  { constructor; [|constructor]. by exists Samples.merged_courses. }
  split; [exact Hf|]. split; [exact Hpost|].
  apply (error_is_sticky [] _ _ _ initialState Hf Hpost).
Defined.

Lemma latest_fetch_shown_witness :
  truthy (error initialState) = false
  ∧ Forall succeeds []
  ∧ outcome {| coursesFetch := Samples.courses_ok;
               sectionsFetch := Samples.sections_ok;
               race := SectionsFirst |}
    = Fulfilled Samples.merged_courses
  ∧ render
      (run [ {| coursesFetch := Samples.courses_ok;
                sectionsFetch := Samples.sections_ok;
                race := SectionsFirst |} ] initialState)
    = MainView Samples.merged_courses [] [].
Proof.
  assert (Herr : truthy (error initialState) = false) by reflexivity.
  assert (Hpre : Forall succeeds []) by constructor.
  assert (Hf : outcome {| coursesFetch := Samples.courses_ok;
                          sectionsFetch := Samples.sections_ok;
                          race := SectionsFirst |}
               = Fulfilled Samples.merged_courses) by reflexivity.
  split; [exact Herr|]. split; [exact Hpre|]. split; [exact Hf|].
  apply (latest_fetch_shown [] _ _ initialState Herr Hpre Hf).
Defined.

Lemma merged_sections_partition_witness :
  tryBlock Samples.courses_ok Samples.sections_ok CoursesFirst
  = Fulfilled Samples.merged_courses
  ∧ ∀ c, c ∈ Samples.merged_courses →
      Samples.fetched_section "CPSC" "1150" "001" ∉ sections c.
Proof.
  assert (Htry : tryBlock Samples.courses_ok Samples.sections_ok CoursesFirst
                 = Fulfilled Samples.merged_courses) by reflexivity.
  split; [exact Htry|].
  destruct (merged_sections_partition _ _ _ _
              {| sections_prop := Some Samples.fetched_sections |}
              Samples.fetched_sections Htry eq_refl eq_refl)
    as (_ & Horphan & _).
  apply Horphan.
  - compute_done.
  - intros (c & Hc & Hs & Hcode). revert Hs Hcode.
    repeat (apply elem_of_cons in Hc as [->|Hc]; [by intros _ [=]|]).
    by apply elem_of_nil in Hc.
Defined.

End ComposerRunFacts.
